(** * Data-Discovery-Platform: path guard, hidden-file filter, ingestion,
      tree walker, preview engine and thumbnail renderer

    A shallow embedding of [storage.py], [upload.py] and [browse.py].
    Python strings are [string]s of code points below 256, [pathlib] paths are
    records of an anchor and a list of segments (POSIX flavour), the
    filesystem is a tree of named entries, and every function that can raise
    returns a [result]. *)

From Stdlib Require Import List String Ascii Bool Arith ZArith Lia.
From Stdlib Require Import Sorting.Sorted Sorting.Permutation.
From Stdlib Require DecimalString.
Import ListNotations.
Open Scope string_scope.

(* ================================================================= *)
(** * Python strings *)

Module pystr.

Definition slash : ascii := "/"%char.
Definition backslash : ascii := ascii_of_nat 92.
Definition nul : ascii := ascii_of_nat 0.
Definition dot : string := ".".
Definition dotdot : string := "..".

(** [not s] on a [str]. *)
Definition is_empty (s : string) : bool :=
  match s with EmptyString => true | _ => false end.

(** [s.replace(old, new)] for one-character [old] and [new]. *)
Fixpoint replace (old new : ascii) (s : string) : string :=
  match s with
  | EmptyString => EmptyString
  | String c r => String (if Ascii.eqb c old then new else c) (replace old new r)
  end.

(** [c in s] for a one-character [c]. *)
Fixpoint contains (c : ascii) (s : string) : bool :=
  match s with
  | EmptyString => false
  | String d r => Ascii.eqb d c || contains c r
  end.

(** [s.split(sep)] for a one-character [sep]: never the empty list. *)
Fixpoint split (sep : ascii) (s : string) : list string :=
  match s with
  | EmptyString => [EmptyString]
  | String c r =>
      if Ascii.eqb c sep then EmptyString :: split sep r
      else match split sep r with
           | h :: t => String c h :: t
           | [] => [String c EmptyString]
           end
  end.

(** [s.lstrip(c)]. *)
Fixpoint lstrip (c : ascii) (s : string) : string :=
  match s with
  | String d r => if Ascii.eqb d c then lstrip c r else s
  | EmptyString => EmptyString
  end.

(** [s.endswith(p)]. *)
Definition endswith (p s : string) : bool :=
  let n := String.length s in
  let k := String.length p in
  Nat.leb k n && String.eqb (String.substring (n - k) k s) p.

(** [c.isspace()] on the code points below 256: the ASCII blanks, the
    separators 28..31, NEL (133) and the no-break space (160). *)
Definition is_space (c : ascii) : bool :=
  let n := nat_of_ascii c in
  Nat.eqb n 32 || (Nat.leb 9 n && Nat.leb n 13)
  || (Nat.leb 28 n && Nat.leb n 31) || Nat.eqb n 133 || Nat.eqb n 160.

Fixpoint lstrip_space (s : string) : string :=
  match s with
  | String d r => if is_space d then lstrip_space r else s
  | EmptyString => EmptyString
  end.

Fixpoint rstrip_space (s : string) : string :=
  match s with
  | EmptyString => EmptyString
  | String d r =>
      match rstrip_space r with
      | EmptyString => if is_space d then EmptyString else String d EmptyString
      | t => String d t
      end
  end.

(** [s.strip()]. *)
Definition strip (s : string) : string := rstrip_space (lstrip_space s).

(** [s.startswith(p)]. *)
Definition startswith (p s : string) : bool := String.prefix p s.

(** [s.lower()]. A string is a sequence of code points below 256, and on
    those [str.lower] shifts A..Z (65..90) and the capital letters of
    192..222, the multiplication sign 215 apart, by 32 and leaves the rest
    alone. *)
Definition lower_char (c : ascii) : ascii :=
  let n := nat_of_ascii c in
  if (Nat.leb 65 n && Nat.leb n 90)
     || (Nat.leb 192 n && Nat.leb n 222 && negb (Nat.eqb n 215))
  then ascii_of_nat (n + 32) else c.

Fixpoint lower (s : string) : string :=
  match s with
  | EmptyString => EmptyString
  | String c r => String (lower_char c) (lower r)
  end.

(** [x in xs] for a list of strings. *)
Definition mem (x : string) (xs : list string) : bool :=
  existsb (String.eqb x) xs.

(** [a < b] on [str]: lexicographic on character codes. *)
Fixpoint ltb (a b : string) : bool :=
  match a, b with
  | _, EmptyString => false
  | EmptyString, String _ _ => true
  | String c a', String d b' =>
      let m := nat_of_ascii c in
      let n := nat_of_ascii d in
      if Nat.ltb m n then true else if Nat.ltb n m then false else ltb a' b'
  end.

(** [repr(s)] on code points below 256. The text stands between single
    quotes, or between double quotes when it holds a single quote and no
    double one; the chosen quote and the backslash are escaped, tab, line
    feed and carriage return are written [\t], [\n], [\r], and every other
    code point that is not printable (0..31, 127..160, 173) as [\xhh]. *)
Definition single_quote : ascii := ascii_of_nat 39.
Definition double_quote : ascii := ascii_of_nat 34.

Definition hex_digit (n : nat) : ascii :=
  if Nat.ltb n 10 then ascii_of_nat (48 + n) else ascii_of_nat (87 + n).

Definition printable (n : nat) : bool :=
  negb (Nat.ltb n 32 || (Nat.leb 127 n && Nat.leb n 160) || Nat.eqb n 173).

Definition escape_char (quote c : ascii) : string :=
  let n := nat_of_ascii c in
  if Ascii.eqb c quote || Ascii.eqb c backslash
  then String backslash (String c EmptyString)
  else if Nat.eqb n 9 then String backslash "t"
  else if Nat.eqb n 10 then String backslash "n"
  else if Nat.eqb n 13 then String backslash "r"
  else if printable n then String c EmptyString
  else String backslash
         (String "x" (String (hex_digit (n / 16))
                             (String (hex_digit (n mod 16)) EmptyString))).

Fixpoint escape (quote : ascii) (s : string) : string :=
  match s with
  | EmptyString => EmptyString
  | String c r => escape_char quote c ++ escape quote r
  end.

Definition repr (s : string) : string :=
  let quote :=
    if contains single_quote s && negb (contains double_quote s)
    then double_quote else single_quote in
  String quote (escape quote s ++ String quote EmptyString).

End pystr.

(* ================================================================= *)
(** * Exceptions and results *)

Inductive exn : Type :=
| HTTPException (status_code : Z) (detail : string)
| ValueError (msg : string)
| RuntimeError (msg : string)
| OtherError (what : string).

(** [str(e)]. *)
Definition exn_str (e : exn) : string :=
  match e with
  | HTTPException _ detail => detail
  | ValueError msg => msg
  | RuntimeError msg => msg
  | OtherError what => what
  end.

Inductive result (A : Type) : Type :=
| Ok (a : A)
| Raise (e : exn).

Arguments Ok {A} a.
Arguments Raise {A} e.

Definition bind {A B : Type} (r : result A) (k : A -> result B) : result B :=
  match r with
  | Ok a => k a
  | Raise e => Raise e
  end.

Notation "x <- r ;; k" := (bind r (fun x => k))
  (at level 61, r at next level, right associativity).

(* ================================================================= *)
(** * pathlib, POSIX flavour *)

Module pathlib.

(** A path is its root ([EmptyString], ["/"] or ["//"]) and its segments;
    the drive is always empty on POSIX. *)
Record Path : Type := mkPath { root : string; segs : list string }.

(** [_PosixFlavour.splitroot]: the root and what follows it. *)
Definition splitroot (part : string) : string * string :=
  match part with
  | String c _ =>
      if Ascii.eqb c pystr.slash then
        let stripped := pystr.lstrip pystr.slash part in
        if Nat.eqb (String.length part - String.length stripped) 2
        then ("//", stripped)
        else ("/", stripped)
      else (EmptyString, part)
  | EmptyString => (EmptyString, part)
  end.

Definition keep_segment (x : string) : bool :=
  negb (pystr.is_empty x) && negb (String.eqb x pystr.dot).

(** The segments one argument contributes, in path order. *)
Definition segments_of (rel : string) : list string :=
  if pystr.contains pystr.slash rel
  then filter keep_segment (pystr.split pystr.slash rel)
  else if keep_segment rel then [rel] else [].

(** The loop of [parse_parts] over the reversed arguments: [parsed] is
    accumulated back to front and the loop stops at the first argument
    (from the right) that has a root. *)
Fixpoint parse_loop (it : list string) (parsed : list string) : string * list string :=
  match it with
  | [] => (EmptyString, parsed)
  | part :: it' =>
      if pystr.is_empty part then parse_loop it' parsed
      else
        let '(rt, rel) := splitroot part in
        let parsed' := (parsed ++ rev (segments_of rel))%list in
        if pystr.is_empty rt then parse_loop it' parsed' else (rt, parsed')
  end.

(** The constructor [Path] / [PurePosixPath] applied to several arguments. *)
Definition of_args (args : list string) : Path :=
  let '(rt, parsed) := parse_loop (rev args) [] in
  mkPath rt (rev parsed).

Definition of_str (s : string) : Path := of_args [s].

(** [p.parts]. *)
Definition parts (p : Path) : list string :=
  if pystr.is_empty (root p) then segs p else root p :: segs p.

(** [p.is_absolute()]. *)
Definition is_absolute (p : Path) : bool := negb (pystr.is_empty (root p)).

(** [p.name]. *)
Definition name (p : Path) : string := last (segs p) EmptyString.

(** [a / b]. *)
Definition truediv (a b : Path) : Path :=
  if is_absolute b then b else mkPath (root a) (segs a ++ segs b)%list.

(** [a == b]: paths compare by their parts. *)
Definition eqb (a b : Path) : bool :=
  if list_eq_dec string_dec (parts a) (parts b) then true else false.

(** The proper prefixes of a list, longest first. *)
Fixpoint proper_prefixes {A : Type} (l : list A) : list (list A) :=
  match l with
  | [] => []
  | x :: r => (map (cons x) (proper_prefixes r) ++ [[]])%list
  end.

(** [p.parents]: the logical ancestors, nearest first. *)
Definition parents (p : Path) : list Path :=
  map (mkPath (root p)) (proper_prefixes (segs p)).

(** [a in ps]. *)
Definition mem (a : Path) (ps : list Path) : bool := existsb (eqb a) ps.

(** [str(p)]. *)
Definition to_str (p : Path) : string :=
  match segs p with
  | [] => if pystr.is_empty (root p) then "." else root p
  | _ => root p ++ String.concat "/" (segs p)
  end.

(** [a < b] on paths: lexicographic on the parts (tuple comparison). *)
Fixpoint parts_ltb (a b : list string) : bool :=
  match a, b with
  | _, [] => false
  | [], _ :: _ => true
  | x :: a', y :: b' =>
      if String.eqb x y then parts_ltb a' b' else pystr.ltb x y
  end.

Definition ltb (a b : Path) : bool := parts_ltb (parts a) (parts b).

(** [p.parent]. *)
Definition parent (p : Path) : Path := mkPath (root p) (removelast (segs p)).

(** [p.suffix]: from the last dot of the name, when that dot is neither
    its first nor its last character. *)
Fixpoint last_dot_tail (s : string) : option string :=
  match s with
  | EmptyString => None
  | String c r =>
      match last_dot_tail r with
      | Some t => Some t
      | None => if Ascii.eqb c "."%char then Some s else None
      end
  end.

Definition suffix (p : Path) : string :=
  match name p with
  | EmptyString => EmptyString
  | String c r =>
      match last_dot_tail r with
      | Some (String d (String e t)) => String d (String e t)
      | _ => EmptyString
      end
  end.

End pathlib.

Import pathlib.

(* ================================================================= *)
(** * storage.py: hidden-file filter and upload path checks *)

Module storage.

(** [is_hidden_or_metadata_path]. *)
Definition is_hidden_or_metadata_path (path : Path) : bool :=
  let parts := filter (fun p => negb (pystr.is_empty p)) (pathlib.parts path) in
  if existsb (pystr.startswith ".") parts then true
  else
    let base := pathlib.name path in
    if pystr.mem base [".DS_Store"; "Thumbs.db"] then true
    else if pystr.startswith "._" base then true
    else false.

(** [_safe_segment]. *)
Definition _safe_segment (value field_name : string) : result string :=
  if pystr.is_empty value then Raise (ValueError ("Empty " ++ field_name))
  else if pystr.contains pystr.nul value then Raise (ValueError ("Invalid " ++ field_name))
  else if pystr.contains pystr.slash value || pystr.contains pystr.backslash value
  then Raise (ValueError (field_name ++ " must be a single path segment"))
  else if pystr.mem value [pystr.dot; pystr.dotdot]
  then Raise (ValueError ("Invalid " ++ field_name))
  else Ok value.

(** [_safe_relpath]: the upload-side check of a client file name. *)
Definition _safe_relpath (filename : string) : result Path :=
  if pystr.is_empty filename then Raise (ValueError "Empty filename")
  else
    let normalized := pystr.replace pystr.backslash pystr.slash filename in
    let p := pathlib.of_str normalized in
    if pathlib.is_absolute p
    then Raise (ValueError ("Absolute paths not allowed: " ++ pystr.repr filename))
    else if existsb (fun part => pystr.mem part [pystr.dotdot; EmptyString]) (pathlib.parts p)
    then Raise (ValueError ("Invalid path: " ++ pystr.repr filename))
    else Ok (pathlib.of_args (pathlib.parts p)).

End storage.

(* ================================================================= *)
(** * browse.py: the path guard *)

Module browse_guard.

(** [_safe_relpath] of browse.py. *)
Definition _safe_relpath (rel : string) : result Path :=
  if pystr.is_empty rel then Raise (HTTPException 400 "path is required")
  else
    let rel_norm := pystr.replace pystr.backslash pystr.slash rel in
    let p := pathlib.of_str rel_norm in
    if pathlib.is_absolute p
    then Raise (HTTPException 400 "Absolute paths not allowed")
    else if pystr.mem pystr.dotdot (pathlib.parts p)
    then Raise (HTTPException 400 "Invalid path")
    else Ok (pathlib.of_args (pathlib.parts p)).

(** [Path.resolve()] consults the filesystem (current directory and
    symbolic links), so it is an argument: [None] is an exception raised
    by the call (a symlink loop, an embedded null byte). *)
Definition resolver : Type := Path -> option Path.

Definition call_resolve (resolve : resolver) (p : Path) : result Path :=
  match resolve p with
  | Some q => Ok q
  | None => Raise (OtherError "resolve")
  end.

(** [_safe_join_dataset]. *)
Definition _safe_join_dataset (resolve : resolver) (root : Path) (rel : string)
  : result Path :=
  root_resolved <- call_resolve resolve root ;;
  r <- _safe_relpath rel ;;
  full <- call_resolve resolve (pathlib.truediv root r) ;;
  if negb (pathlib.eqb full root_resolved)
     && negb (pathlib.mem root_resolved (pathlib.parents full))
  then Raise (HTTPException 400 "Path escapes dataset root")
  else Ok full.

(** A resolver for a filesystem without symbolic links whose current
    directory is [cwd]: the path is made absolute and stays as it is when
    no segment is [..]. *)
Definition plain_resolve (cwd : list string) (p : Path) : option Path :=
  if pystr.mem pystr.dotdot (segs p) then None
  else if pathlib.is_absolute p then Some p
  else Some (mkPath "/" (cwd ++ segs p)%list).

End browse_guard.

(* ================================================================= *)
(** * [sorted]: a stable sort that only asks [a < b] *)

Module pysort.

Section Sorted.
Context {A : Type} (ltb : A -> A -> bool).

(** [x] goes in front of the first element that is not below it, so it
    stays ahead of the equal elements that followed it in the input. *)
Fixpoint insert (x : A) (l : list A) : list A :=
  match l with
  | [] => [x]
  | y :: r => if ltb y x then y :: insert x r else x :: y :: r
  end.

Fixpoint sorted (l : list A) : list A :=
  match l with
  | [] => []
  | x :: r => insert x (sorted r)
  end.

(** [a] may stand before [b]: [b] is not below it. *)
Definition may_precede (a b : A) : Prop := ltb b a = false.
End Sorted.

End pysort.

(* ================================================================= *)
(** * The filesystem below the working directory *)

Module fs.

(** A regular file with its bytes, or a directory with its entries in
    the order [os.scandir] reports them. The disks considered hold
    nothing else: no symbolic links, devices or sockets, so [stat] on a
    listed entry always answers. *)
#[warnings="-register-all"]
Inductive node : Type :=
| File (content : string)
| Dir (entries : list (string * node)).

Definition is_dir (n : node) : bool :=
  match n with Dir _ => true | File _ => false end.

Definition is_file (n : node) : bool :=
  match n with File _ => true | Dir _ => false end.

(** [stat().st_size]. *)
Definition st_size (n : node) : nat :=
  match n with File c => String.length c | Dir _ => 0 end.

Fixpoint get_entry (nm : string) (es : list (string * node)) : option node :=
  match es with
  | [] => None
  | (k, x) :: r => if String.eqb k nm then Some x else get_entry nm r
  end.

(** Replace the entry called [nm], or add it at the end. *)
Fixpoint set_entry (nm : string) (v : node) (es : list (string * node))
  : list (string * node) :=
  match es with
  | [] => [(nm, v)]
  | (k, x) :: r => if String.eqb k nm then (k, v) :: r else (k, x) :: set_entry nm v r
  end.

(** The node a relative path names. *)
Fixpoint lookup (p : list string) (n : node) : option node :=
  match p with
  | [] => Some n
  | s :: rest =>
      match n with
      | Dir es =>
          match get_entry s es with
          | Some x => lookup rest x
          | None => None
          end
      | File _ => None
      end
  end.

Definition exists_ (p : list string) (n : node) : bool :=
  match lookup p n with Some _ => true | None => false end.

Definition path_is_dir (p : list string) (n : node) : bool :=
  match lookup p n with Some x => is_dir x | None => false end.

(** [mkdir(parents=True, exist_ok=True)]: [None] when a component is a
    regular file (the call raises and creates nothing). *)
Fixpoint mkdir_p (p : list string) (n : node) {struct p} : option node :=
  match n with
  | File _ => None
  | Dir es =>
      match p with
      | [] => Some n
      | s :: rest =>
          let sub := match get_entry s es with Some x => x | None => Dir [] end in
          match mkdir_p rest sub with
          | Some sub' => Some (Dir (set_entry s sub' es))
          | None => None
          end
      end
  end.

(** [open(p, 'wb')] followed by one [write]: the file is created or
    replaced; [None] when [p] is a directory or its parent is missing or
    is not a directory. *)
Fixpoint write_at (p : list string) (content : string) (n : node) {struct p}
  : option node :=
  match n with
  | File _ => None
  | Dir es =>
      match p with
      | [] => None
      | [s] =>
          match get_entry s es with
          | Some (Dir _) => None
          | _ => Some (Dir (set_entry s (File content) es))
          end
      | s :: rest =>
          match get_entry s es with
          | Some sub =>
              match write_at rest content sub with
              | Some sub' => Some (Dir (set_entry s sub' es))
              | None => None
              end
          | None => None
          end
      end
  end.

(** [rglob('*')] below a node: every descendant with its path relative to
    the node and the entry it was listed from. *)
Fixpoint rglob (n : node) : list (list string * node) :=
  match n with
  | File _ => []
  | Dir es =>
      (fix go (es : list (string * node)) : list (list string * node) :=
         match es with
         | [] => []
         | (nm, c) :: r =>
             (([nm], c) :: map (fun q => (nm :: fst q, snd q)) (rglob c) ++ go r)%list
         end) es
  end.

End fs.

(* ================================================================= *)
(** * models.py and the session *)

Module models.

#[warnings="-notation-overridden"]
Record Dataset : Type := mkDataset {
id : string;
partner_id : string;
name : string;
type : string;
path : string;
file_count : nat;
total_size_bytes : nat;
uploaded_at : Z
}.

End models.

(** What a request can see and change: the filesystem below the working
    directory and the rows of the [datasets] table, oldest insert first. *)
Record world : Type := mkWorld { disk : fs.node; datasets : list models.Dataset }.

(* ================================================================= *)
(** * storage.py: writing an upload to disk *)

(** One part of the multipart body: [f.filename] and what [f.file.read()]
    returns. *)
Record UploadFile : Type := mkUpload { filename : string; body : string }.

Module store.

Definition BASE_PATH : Path := pathlib.of_str "data/raw".

(** What [os.mkdir] and [open] raise, as a [ValueError], for a path that
    holds a NUL. *)
Definition embedded_null : string := "embedded null byte".

(** The body of the [for f in files] loop of [save_files]; the disk is
    returned as the loop left it, also when the loop raises. A NUL in a
    directory segment stops [mkdir] before anything is created, a NUL in
    the file name stops [open] after the parents were made. *)
Fixpoint save_loop (root : Path) (files : list UploadFile) (d : fs.node)
  : fs.node * result unit :=
  match files with
  | [] => (d, Ok tt)
  | f :: rest =>
      match storage._safe_relpath (filename f) with
      | Raise e => (d, Raise e)
      | Ok rel =>
          if storage.is_hidden_or_metadata_path rel then save_loop root rest d
          else
            let dest := pathlib.truediv root rel in
            if existsb (pystr.contains pystr.nul) (segs (pathlib.parent dest))
            then (d, Raise (ValueError embedded_null))
            else
              match fs.mkdir_p (segs (pathlib.parent dest)) d with
              | None => (d, Raise (OtherError "mkdir"))
              | Some d1 =>
                  if pystr.contains pystr.nul (pathlib.name dest)
                  then (d1, Raise (ValueError embedded_null))
                  else
                    match fs.write_at (segs dest) (body f) d1 with
                    | None => (d1, Raise (OtherError "open"))
                    | Some d2 => save_loop root rest d2
                    end
              end
      end
  end.

(** The storage root [BASE_PATH / partner_id / dataset_name]. *)
Definition root_of (partner_id dataset_name : string) : Path :=
  pathlib.truediv (pathlib.truediv BASE_PATH (pathlib.of_str partner_id))
                  (pathlib.of_str dataset_name).

(** [save_files]. *)
Definition save_files (partner_id dataset_name : string) (files : list UploadFile)
           (d : fs.node) : fs.node * result Path :=
  match storage._safe_segment partner_id "partner_id" with
  | Raise e => (d, Raise e)
  | Ok partner_id =>
      match storage._safe_segment dataset_name "dataset_name" with
      | Raise e => (d, Raise e)
      | Ok dataset_name =>
          let root := root_of partner_id dataset_name in
          match fs.mkdir_p (segs root) d with
          | None => (d, Raise (OtherError "mkdir"))
          | Some d1 =>
              match save_loop root files d1 with
              | (d2, Ok _) => (d2, Ok root)
              | (d2, Raise e) => (d2, Raise e)
              end
          end
      end
  end.

End store.

(* ================================================================= *)
(** * upload.py *)

Module upload.

Definition no_uploadable : string :=
  "No uploadable files found (hidden/metadata files were skipped)".

(** The files the manifest counts: what [root.rglob('*')] lists, kept
    when it is a regular file whose path relative to the root is not
    hidden. *)
Definition all_files (root : Path) (d : fs.node) : list (list string * fs.node) :=
  match fs.lookup (segs root) d with
  | Some r =>
      filter (fun f => fs.is_file (snd f)
                       && negb (storage.is_hidden_or_metadata_path
                                  (mkPath EmptyString (fst f))))
             (fs.rglob r)
  | None => []
  end.

Definition total_size (fl : list (list string * fs.node)) : nat :=
  fold_right (fun f acc => fs.st_size (snd f) + acc) 0 fl.

(** [upload]: [dataset_id] is the fresh [uuid4] and [now] the clock value
    the row's default takes. *)
Definition upload (dataset_id : string) (now : Z)
           (partner_id dataset_name : string) (files : list UploadFile)
           (w : world) : world * result string :=
  match store.save_files partner_id dataset_name files (disk w) with
  | (d, Raise (ValueError m)) => (mkWorld d (datasets w), Raise (HTTPException 400 m))
  | (d, Raise e) => (mkWorld d (datasets w), Raise e)
  | (d, Ok path) =>
      let root := path in
      let fl := all_files root d in
      let file_count := List.length fl in
      let total := total_size fl in
      if Nat.eqb file_count 0
      then (mkWorld d (datasets w), Raise (HTTPException 400 no_uploadable))
      else
        let dataset :=
          models.mkDataset dataset_id partner_id dataset_name "mixed"
                    (pathlib.to_str path) file_count total now in
        (mkWorld d (datasets w ++ [dataset])%list, Ok dataset_id)
  end.

End upload.

(* ================================================================= *)
(** * browse.py: lookup and the tree walker *)

Module browse.

Import browse_guard.

(** The newest row among those of the partner and name: [order_by
    uploaded_at desc] then [first()]; among equal times the earliest
    insert is taken. *)
Fixpoint newest (best : option models.Dataset) (l : list models.Dataset)
  : option models.Dataset :=
  match l with
  | [] => best
  | d :: r =>
      match best with
      | Some b => if Z.ltb (models.uploaded_at b) (models.uploaded_at d)
                  then newest (Some d) r else newest best r
      | None => newest (Some d) r
      end
  end.

(** [_get_dataset_by_partner_and_name_or_404]. *)
Definition _get_dataset_by_partner_and_name_or_404
           (partner_id dataset_name : string) (w : world) : result models.Dataset :=
  let matching :=
    filter (fun d => String.eqb (models.partner_id d) partner_id
                     && String.eqb (models.name d) dataset_name) (datasets w) in
  match newest None matching with
  | Some d => Ok d
  | None => Raise (HTTPException 404 "Dataset not found for partner_id + dataset_name")
  end.

(** A node of the answer of [/datasets/tree]. *)
#[warnings="-register-all"]
Inductive TreeNode : Type :=
| Directory (name path : string) (children : list TreeNode)
| FileEntry (name path : string) (size_bytes : nat).

(** The two [nonlocal] variables of [dataset_tree]. *)
Record walk_state : Type := mkWalk { truncated : bool; entries_seen : nat }.

(** The sort key [(not p.is_dir(), p.name.lower())]. *)
Definition child_key (e : string * fs.node) : bool * string :=
  (negb (fs.is_dir (snd e)), pystr.lower (fst e)).

(** [a < b] on the keys: tuples compare at their first unequal
    component; [False < True]. *)
Definition key_ltb (a b : bool * string) : bool :=
  if Bool.eqb (fst a) (fst b) then pystr.ltb (snd a) (snd b)
  else negb (fst a).

Definition child_ltb (a b : string * fs.node) : bool :=
  key_ltb (child_key a) (child_key b).

(** A path relative to the dataset root, as the hidden-file filter and
    [str] see it. *)
Definition rel_path (rel : list string) : Path := mkPath EmptyString rel.

(** [_rel]: the empty string for the root itself. *)
Definition _rel (rel : list string) : string :=
  match rel with
  | [] => EmptyString
  | _ => pathlib.to_str (rel_path rel)
  end.

Section Walk.
Variables max_depth max_entries : nat.

(** The [for child in children] loop. [build] is the recursive call
    for a sub-directory; a directory is named by its path relative to
    the dataset root and comes with the entries [iterdir] lists. *)
Fixpoint children_loop
         (build : list string -> list (string * fs.node) -> walk_state
                  -> option (TreeNode * walk_state))
         (dir_rel : list string) (children : list (string * fs.node))
         (acc : list TreeNode) (st : walk_state)
  : option (list TreeNode * walk_state) :=
  match children with
  | [] => Some (acc, st)
  | (nm, child) :: rest =>
      let rel_child := (dir_rel ++ [nm])%list in
      if storage.is_hidden_or_metadata_path (rel_path rel_child)
      then children_loop build dir_rel rest acc st
      else if Nat.leb max_entries (entries_seen st)
      then Some (acc, mkWalk true (entries_seen st))
      else
        let st1 := mkWalk (truncated st) (entries_seen st + 1) in
        match child with
        | fs.Dir es =>
            match build rel_child es st1 with
            | Some (n, st2) =>
                children_loop build dir_rel rest (acc ++ [n])%list st2
            | None => None
            end
        | fs.File _ =>
            children_loop build dir_rel rest
              (acc ++ [FileEntry nm (pathlib.to_str (rel_path rel_child))
                                 (fs.st_size child)])%list st1
        end
  end.

(** [_build_dir_node]. The recursion is bounded by the depth; [fuel]
    makes that bound structural and [None] is an exhausted [fuel]. *)
Fixpoint _build_dir_node (fuel : nat) (dir_rel : list string)
         (entries : list (string * fs.node)) (depth : nat) (st : walk_state)
  : option (TreeNode * walk_state) :=
  match fuel with
  | O => None
  | S fuel' =>
      let nm := last dir_rel EmptyString in
      if Nat.leb max_depth depth || truncated st
      then Some (Directory nm (_rel dir_rel) [], st)
      else
        let children := pysort.sorted child_ltb entries in
        match children_loop
                (fun r es s => _build_dir_node fuel' r es (S depth) s)
                dir_rel children [] st with
        | Some (ch, st') => Some (Directory nm (_rel dir_rel) ch, st')
        | None => None
        end
  end.

(** The walk from the dataset root: state [False, 0], depth 0. *)
Definition build_tree (entries : list (string * fs.node))
  : option (TreeNode * walk_state) :=
  _build_dir_node (S max_depth) [] entries 0 (mkWalk false 0).

End Walk.

Record TreeResponse : Type := mkTreeResponse {
  tr_partner_id : string;
  tr_dataset_name : string;
  tr_dataset_id : string;
  root_path : string;
  tr_max_depth : nat;
  tr_max_entries : nat;
  entries_returned : nat;
  tr_truncated : bool;
  tree : TreeNode
}.

(** [dataset_tree]: [path] is the empty string, so the walk starts at
    the dataset root; the row's path is relative to the working
    directory. *)
Definition dataset_tree (partner_id dataset_name : string) (w : world)
  : result TreeResponse :=
  let max_depth := 5 in
  let max_entries := 2000 in
  d <- _get_dataset_by_partner_and_name_or_404 partner_id dataset_name w ;;
  let root := pathlib.of_str (models.path d) in
  match fs.lookup (segs root) (disk w) with
  | None => Raise (HTTPException 404 "Dataset path missing on disk")
  | Some (fs.File _) => Raise (HTTPException 400 "Path must be a directory")
  | Some (fs.Dir entries) =>
      match build_tree max_depth max_entries entries with
      | Some (t, st) =>
          Ok (mkTreeResponse partner_id dataset_name (models.id d) (_rel [])
                             max_depth max_entries (entries_seen st)
                             (truncated st) t)
      | None => Raise (OtherError "RecursionError")
      end
  end.

End browse.

(* ================================================================= *)
(** * browse.py: previews and thumbnails *)

(** What the decoding libraries and the operating system answer. The
    repository calls them and does not define them, so they are the fields
    of an environment. *)
Module pil.

(** A decoded image: [img.mode], [img.size] and whether [img.info] has
    the key [transparency]. *)
Record Image : Type := mkImage {
  mode : string;
  width : nat;
  height : nat;
  info_transparency : bool
}.

(** [img.convert(m)]: the same picture in another mode. *)
Definition convert (img : Image) (m : string) : Image :=
  mkImage m (width img) (height img) (info_transparency img).

(** A call of [img.save(out, format=..., ...)]: what is encoded and how. *)
Record Saved : Type := mkSaved {
  format : string;
  quality : option nat;
  optimize : bool;
  picture : Image
}.

(** Pillow's [Image.thumbnail(size)], which the repository calls and does
    not define. The size comes from its [preserve_aspect_ratio], written
    here with exact quotients: [aspect] is [w / h], and a key that
    compares two quotients compares their cross products. *)
Definition distance (a b : nat) : nat := (a - b) + (b - a).

(** [math.ceil(num / den)]. *)
Definition ceil_div (num den : nat) : nat :=
  if Nat.eqb (num mod den) 0 then num / den else S (num / den).

(** [max(min(math.floor(number), math.ceil(number), key=key), 1)]: the
    ceiling when its key is strictly the smaller, the floor otherwise. *)
Definition round_aspect (lo hi : nat) (hi_is_closer : bool) : nat :=
  Nat.max (if hi_is_closer then hi else lo) 1.

(** The size for an image of [w] by [h] that does not fit the box [x] by
    [y]. When [x / y >= aspect] the width becomes
    [round_aspect(y * aspect, key=lambda n: abs(aspect - n / y))],
    otherwise the height becomes [round_aspect(x / aspect,
    key=lambda n: 0 if n == 0 else abs(aspect - x / n))]. *)
Definition thumbnail_size (w h x y : nat) : nat * nat :=
  if Nat.leb (w * y) (x * h)
  then
    let lo := (y * w) / h in
    let hi := ceil_div (y * w) h in
    (round_aspect lo hi
       (Nat.ltb (distance (w * y) (hi * h)) (distance (w * y) (lo * h))), y)
  else
    let lo := (x * h) / w in
    let hi := ceil_div (x * h) w in
    (x, round_aspect lo hi
          (negb (Nat.eqb lo 0)
           && Nat.ltb (distance (w * hi) (x * h) * lo)
                      (distance (w * lo) (x * h) * hi))).

(** [img.thumbnail((x, y))]: an image that fits the box is left alone,
    any other is resized to [thumbnail_size]; the mode and [info] stay.
    A height of 0 makes [aspect] a division by zero. *)
Definition thumbnail (img : Image) (box : nat * nat) : result Image :=
  let (x, y) := box in
  if Nat.leb (width img) x && Nat.leb (height img) y then Ok img
  else if Nat.eqb (height img) 0 || Nat.eqb y 0
       then Raise (OtherError "division by zero")
       else
         let s := thumbnail_size (width img) (height img) x y in
         Ok (mkImage (mode img) (fst s) (snd s) (info_transparency img)).

End pil.

(** The state of a finished [subprocess.run], or its timeout. *)
Inductive proc_outcome : Type :=
| TimeoutExpired
| Completed (returncode : Z) (stdout stderr : string).

(** The JSON object the decoding child prints; a key may be missing. *)
Record Payload : Type := mkPayload {
  rows : option (list string);
  returned : option nat;
  columns : option (list string)
}.

Record env : Type := mkEnv {
  (** [from PIL import Image] succeeds *)
  pil_installed : bool;
  (** [subprocess.run([python, -c, code, path, n], timeout=20)] *)
  run_child : string -> nat -> proc_outcome;
  (** [json.loads] *)
  json_loads : string -> result Payload;
  (** [Image.open] on the bytes of a file *)
  image_open : string -> result pil.Image;
  (** [img.thumbnail(size)], which changes the image in place *)
  pil_thumbnail : pil.Image -> nat * nat -> result pil.Image;
  (** [img.save] raising or not *)
  pil_save : pil.Saved -> result unit;
  (** [random.choice] as the index it picks in a sequence of that length *)
  random_index : nat -> nat;
  (** [Path.resolve] and the working directory it makes paths absolute with *)
  resolve : browse_guard.resolver;
  cwd : list string
}.

Module preview.

Import browse.

Definition int_str (z : Z) : string :=
  DecimalString.NilZero.string_of_int (Z.to_int z).

Definition empty_payload : Payload := mkPayload (Some []) (Some 0) (Some []).

(** [_parquet_preview_subprocess]. *)
Definition _parquet_preview_subprocess (e : env) (parquet_path : Path) (n : nat)
  : result Payload :=
  match run_child e (pathlib.to_str parquet_path) n with
  | TimeoutExpired => Raise (OtherError "TimeoutExpired")
  | Completed returncode stdout stderr =>
      if negb (Z.eqb returncode 0) then
        let stderr := pystr.strip stderr in
        Raise (RuntimeError
                 (if pystr.is_empty stderr
                  then "preview subprocess failed (exit=" ++ int_str returncode ++ ")"
                  else stderr))
      else
        let out := pystr.strip stdout in
        if pystr.is_empty out then Ok empty_payload
        else json_loads e out
  end.

Record ParquetPreview : Type := mkParquetPreview {
  pq_path : string;
  pq_rows : list string;
  pq_returned : nat;
  pq_columns : list string
}.

Record ImagePreview : Type := mkImagePreview {
  im_path : string;
  im_width : nat;
  im_height : nat;
  thumbnail_url : string
}.

Record ErrorEntry : Type := mkErrorEntry {
  err_type : string;
  err_path : string;
  err_error : string
}.

Definition get {A : Type} (o : option A) (default : A) : A :=
  match o with Some a => a | None => default end.

(** A listed path: relative to the dataset root, with its entry. *)
Definition listed : Type := (list string * fs.node)%type.

Definition full_path (root : Path) (f : listed) : Path :=
  pathlib.truediv root (rel_path (fst f)).

(** [sorted] on a list of paths below [root]. *)
Definition sorted_paths (root : Path) (l : list listed) : list listed :=
  pysort.sorted (fun a b => pathlib.ltb (full_path root a) (full_path root b)) l.

(** The loop over the tabular files. *)
Fixpoint parquet_loop (e : env) (root : Path) (parquet_rows : nat)
         (files : list listed)
         (previews : list ParquetPreview) (errors : list ErrorEntry)
  : list ParquetPreview * list ErrorEntry :=
  match files with
  | [] => (previews, errors)
  | f :: rest =>
      let rel := pathlib.to_str (rel_path (fst f)) in
      match _parquet_preview_subprocess e (full_path root f) parquet_rows with
      | Ok p =>
          parquet_loop e root parquet_rows rest
            (previews ++ [mkParquetPreview rel (get (rows p) [])
                                           (get (returned p) 0)
                                           (get (columns p) [])])%list
            errors
      | Raise x =>
          parquet_loop e root parquet_rows rest previews
            (errors ++ [mkErrorEntry "parquet" rel (exn_str x)])%list
      end
  end.

Definition image_exts : list string :=
  [".png"; ".jpg"; ".jpeg"; ".gif"; ".webp"; ".bmp"; ".tif"; ".tiff"; ".heic"].

Definition has_image_ext (rel : list string) : bool :=
  pystr.mem (pystr.lower (pathlib.suffix (rel_path rel))) image_exts.

Definition thumbnail_link (partner_id dataset_name rel : string) : string :=
  "/thumbnail?partner_id=" ++ partner_id ++ "&dataset_name=" ++ dataset_name
    ++ "&path=" ++ rel.

Definition file_bytes (n : fs.node) : string :=
  match n with fs.File c => c | fs.Dir _ => EmptyString end.

(** The loop over the image files. *)
Fixpoint image_loop (e : env) (partner_id dataset_name : string)
         (files : list listed)
         (previews : list ImagePreview) (errors : list ErrorEntry)
  : list ImagePreview * list ErrorEntry :=
  match files with
  | [] => (previews, errors)
  | f :: rest =>
      let rel := pathlib.to_str (rel_path (fst f)) in
      match image_open e (file_bytes (snd f)) with
      | Ok img =>
          image_loop e partner_id dataset_name rest
            (previews ++ [mkImagePreview rel (pil.width img) (pil.height img)
                            (thumbnail_link partner_id dataset_name rel)])%list
            errors
      | Raise x =>
          image_loop e partner_id dataset_name rest previews
            (errors ++ [mkErrorEntry "image" rel (exn_str x)])%list
      end
  end.

Record PreviewResponse : Type := mkPreviewResponse {
  pr_partner_id : string;
  pr_dataset_name : string;
  pr_dataset_id : string;
  parquet_count : nat;
  parquet_previews : list ParquetPreview;
  images_count : nat;
  image_previews : list ImagePreview;
  errors : list ErrorEntry
}.

(** [root.rglob('*.parquet')], sorted, the first 25. *)
Definition parquet_files (root : Path) (r : fs.node) : list listed :=
  firstn 25
    (sorted_paths root
       (filter (fun f => pystr.endswith ".parquet" (pathlib.name (rel_path (fst f))))
               (fs.rglob r))).

(** The regular files with an image extension, sorted, the first 50. *)
Definition image_files (root : Path) (r : fs.node) : list listed :=
  firstn 50
    (sorted_paths root
       (filter (fun f => fs.is_file (snd f) && has_image_ext (fst f))
               (fs.rglob r))).

(** [preview_dataset]. *)
Definition preview_dataset (e : env) (partner_id dataset_name : string)
           (parquet_rows : nat) (w : world) : result PreviewResponse :=
  d <- _get_dataset_by_partner_and_name_or_404 partner_id dataset_name w ;;
  let root := pathlib.of_str (models.path d) in
  match fs.lookup (segs root) (disk w) with
  | None => Raise (HTTPException 404 "Dataset path missing on disk")
  | Some r =>
      let pfiles := parquet_files root r in
      let '(pp, errs) := parquet_loop e root parquet_rows pfiles [] [] in
      if negb (pil_installed e)
      then Raise (HTTPException 500 "Pillow not installed (pip install pillow)")
      else
        let ifiles := image_files root r in
        let '(ip, errs') := image_loop e partner_id dataset_name ifiles [] errs in
        Ok (mkPreviewResponse partner_id dataset_name (models.id d)
                              (List.length pfiles) pp (List.length ifiles) ip errs')
  end.

End preview.

Module thumb.

Import browse browse_guard.

Fixpoint strip_prefix (pre l : list string) : option (list string) :=
  match pre, l with
  | [], _ => Some l
  | x :: pre', y :: l' => if String.eqb x y then strip_prefix pre' l' else None
  | _ :: _, [] => None
  end.

(** The entry a path names: a relative path is taken from the working
    directory, an absolute one when it lies below it. *)
Definition locate (e : env) (p : Path) (d : fs.node) : option fs.node :=
  if pathlib.is_absolute p then
    match strip_prefix (cwd e) (segs p) with
    | Some rest => fs.lookup rest d
    | None => None
    end
  else fs.lookup (segs p) d.

Definition thumbnail_max_size : nat := 256.

(** [has_alpha], read after [img.thumbnail]. *)
Definition has_alpha (img : pil.Image) : bool :=
  pystr.mem (pil.mode img) ["RGBA"; "LA"]
  || (String.eqb (pil.mode img) "P" && pil.info_transparency img).

Definition unreadable {A : Type} (x : exn) : result A :=
  Raise (HTTPException 400 ("Unable to read image: " ++ exn_str x)).

(** The [try] block of [thumbnail] on the bytes of the chosen file: the
    call of [save] that fills the response and the media type. *)
Definition render (e : env) (content : string) : result (pil.Saved * string) :=
  match image_open e content with
  | Raise x => unreadable x
  | Ok opened =>
      match pil_thumbnail e opened (thumbnail_max_size, thumbnail_max_size) with
      | Raise x => unreadable x
      | Ok img =>
          if has_alpha img then
            let out := pil.mkSaved "PNG" None false img in
            match pil_save e out with
            | Raise x => unreadable x
            | Ok _ => Ok (out, "image/png")
            end
          else
            let img :=
              if negb (pystr.mem (pil.mode img) ["RGB"; "L"])
              then pil.convert img "RGB" else img in
            let out := pil.mkSaved "JPEG" (Some 85) true img in
            match pil_save e out with
            | Raise x => unreadable x
            | Ok _ => Ok (out, "image/jpeg")
            end
      end
  end.

(** The image files [thumbnail] draws from when no path is given. *)
Definition candidates (r : fs.node) : list preview.listed :=
  filter (fun f => fs.is_file (snd f) && preview.has_image_ext (fst f)
                   && negb (storage.is_hidden_or_metadata_path (rel_path (fst f))))
         (fs.rglob r).

(** [thumbnail]. *)
Definition thumbnail (e : env) (partner_id dataset_name : string)
           (path : option string) (w : world) : result (pil.Saved * string) :=
  d <- _get_dataset_by_partner_and_name_or_404 partner_id dataset_name w ;;
  let root := pathlib.of_str (models.path d) in
  target <-
    match path with
    | Some (String c s) =>
        full <- _safe_join_dataset (resolve e) root (String c s) ;;
        Ok (locate e full (disk w))
    | _ =>
        let files :=
          match fs.lookup (segs root) (disk w) with
          | Some r => candidates r
          | None => []
          end in
        match files with
        | [] => Raise (HTTPException 404 "No image files found in dataset")
        | f :: _ => Ok (Some (snd (nth (random_index e (List.length files)) files f)))
        end
    end ;;
  match target with
  | Some (fs.File content) =>
      if negb (pil_installed e)
      then Raise (HTTPException 500 "Pillow not installed (pip install pillow)")
      else render e content
  | _ => Raise (HTTPException 404 "File not found")
  end.

End thumb.

(** A string is absolute when it starts with a slash. *)
Definition starts_with_slash (s : string) : bool :=
  match s with
  | String c _ => Ascii.eqb c pystr.slash
  | EmptyString => false
  end.

(** The normal form the guards work on: backslashes become slashes. *)
Definition normalized (s : string) : string :=
  pystr.replace pystr.backslash pystr.slash s.

(** The claim's two grounds for rejection. *)
Definition is_absolute_text (s : string) : Prop :=
  starts_with_slash (normalized s) = true.

Definition has_dotdot_segment (s : string) : Prop :=
  In pystr.dotdot (pystr.split pystr.slash (normalized s)).

(* ================================================================= *)
(** * Comparing two states of the disk *)

Module diskview.

(** Every regular file listed below [n] is listed, as a regular file,
    at the same relative path below [n']. *)
Definition files_kept (n n' : fs.node) : Prop :=
  forall q x, In (q, x) (fs.rglob n) -> fs.is_file x = true ->
              exists x', In (q, x') (fs.rglob n') /\ fs.is_file x' = true.

(** [n'] is of the kind of [n] and keeps its files. *)
Definition node_kept (n n' : fs.node) : Prop :=
  (fs.is_file n = true -> fs.is_file n' = true)
  /\ (fs.is_dir n = true -> fs.is_dir n' = true)
  /\ files_kept n n'.

(** Whatever a path names on [d] it still names on [d'], kept. *)
Definition disk_kept (d d' : fs.node) : Prop :=
  forall r n, fs.lookup r d = Some n ->
              exists n', fs.lookup r d' = Some n' /\ node_kept n n'.

End diskview.

(** An exception that is not the one [upload] raises for an empty
    manifest. *)
Definition other_failure (e : exn) : Prop :=
  match e with
  | ValueError m => m <> upload.no_uploadable
  | HTTPException _ _ => False
  | _ => True
  end.

(** The file is skipped by [save_files]: its name passes the path check
    and is hidden. *)
Definition skipped (f : UploadFile) : bool :=
  match storage._safe_relpath (filename f) with
  | Ok rel => storage.is_hidden_or_metadata_path rel
  | Raise _ => false
  end.

(** The resizer of the environment is Pillow's: whenever
    [img.thumbnail(box)] returns, the image has become
    [pil.thumbnail img box]. *)
Definition pillow_resizes (e : env) : Prop :=
  forall img box out,
    pil_thumbnail e img box = Ok out -> pil.thumbnail img box = Ok out.

(** Every tabular file and every image file below a node, as the two
    scans of [preview_dataset] find them, before they are sorted and cut
    to the first 25 and the first 50. *)
Definition located_tabular (r : fs.node) : list preview.listed :=
  filter (fun f => pystr.endswith ".parquet"
                     (pathlib.name (browse.rel_path (fst f))))
         (fs.rglob r).

Definition located_images (r : fs.node) : list preview.listed :=
  filter (fun f => fs.is_file (snd f) && preview.has_image_ext (fst f))
         (fs.rglob r).

(** The relative path a preview or an error entry reports for a listed
    file. *)
Definition reported (f : preview.listed) : string :=
  pathlib.to_str (browse.rel_path (fst f)).

(** The isolated decoding of [f] fails: the child timed out or exited
    with a status other than 0. *)
Definition child_failed (e : env) (root : Path) (n : nat) (f : preview.listed) : Prop :=
  match run_child e (pathlib.to_str (preview.full_path root f)) n with
  | TimeoutExpired => True
  | Completed returncode _ _ => returncode <> 0%Z
  end.

(** What [_safe_segment] asks of a partner id or a dataset name. *)
Definition clean_segment (s : string) : Prop :=
  s <> EmptyString
  /\ pystr.contains pystr.nul s = false
  /\ pystr.contains pystr.slash s = false
  /\ pystr.contains pystr.backslash s = false
  /\ s <> pystr.dot /\ s <> pystr.dotdot.

(* ================================================================= *)
(** * Sample data *)

Module sample.

(** A filesystem without symbolic links, working directory [/srv]. *)
Definition resolve : browse_guard.resolver := browse_guard.plain_resolve ["srv"].

Definition cats_root : Path := pathlib.of_str "data/raw/acme/cats".

(** The directory [b.txt], [A_dir/], [a.txt], in that listing order. *)
Definition mixed : list (string * fs.node) :=
  [("b.txt", fs.File "bb"); ("A_dir", fs.Dir []); ("a.txt", fs.File "a")].

(** [n] regular files [f0.bin], [f1.bin], ... *)
Definition numbered (i : nat) : string * fs.node :=
  ("f" ++ DecimalString.NilZero.string_of_uint (Nat.to_uint i) ++ ".bin",
   fs.File "x").

Definition many_files (n : nat) : list (string * fs.node) :=
  map numbered (seq 0 n).

(** A disk that holds one directory below [data/raw/acme]. *)
Definition disk_with (name : string) (entries : list (string * fs.node)) : fs.node :=
  fs.Dir [("data", fs.Dir [("raw", fs.Dir [("acme", fs.Dir [(name, fs.Dir entries)])])])].

Definition row (name : string) (count size : nat) (at_ : Z) : models.Dataset :=
  models.mkDataset ("id-" ++ name) "acme" name "mixed"
                   ("data/raw/acme/" ++ name) count size at_.

(** Nothing on disk, no row. *)
Definition empty_world : world := mkWorld (fs.Dir []) [].

(** The dataset [cats] after a first upload of [a.txt]. *)
Definition cats_world : world :=
  mkWorld (disk_with "cats" [("a.txt", fs.File "hello")]) [row "cats" 1 5 1].

(** Decoders for the examples: the child exits with status 1 on a path
    that ends in [bad.parquet] and prints a one-row payload otherwise;
    [Image.open] fails on the bytes [garbage]; the resizer is
    [pil.thumbnail]. *)
Definition demo_env : env :=
  mkEnv true
        (fun path n =>
           if pystr.endswith "bad.parquet" path
           then Completed 1 EmptyString "ArrowInvalid: not a parquet file"
           else Completed 0 "{rows: [r1], columns: [c], returned: 1}" EmptyString)
        (fun out => Ok (mkPayload (Some ["r1"]) (Some 1) (Some ["c"])))
        (fun bytes =>
           if String.eqb bytes "garbage"
           then Raise (OtherError "cannot identify image file")
           else Ok (pil.mkImage "RGB" 640 480 false))
        pil.thumbnail
        (fun _ => Ok tt)
        (fun _ => 0)
        resolve
        ["srv"].

(** Decoded pictures for the dataset [art], by the bytes of the file,
    and an environment whose resizer is [pil.thumbnail]. *)
Definition decoded (bytes : string) : result pil.Image :=
  if String.eqb bytes "rgba" then Ok (pil.mkImage "RGBA" 640 480 false)
  else if String.eqb bytes "la" then Ok (pil.mkImage "LA" 100 50 false)
  else if String.eqb bytes "clear palette" then Ok (pil.mkImage "P" 100 1000 true)
  else if String.eqb bytes "palette" then Ok (pil.mkImage "P" 300 300 false)
  else if String.eqb bytes "grey" then Ok (pil.mkImage "L" 1920 1080 false)
  else if String.eqb bytes "cmyk" then Ok (pil.mkImage "CMYK" 257 256 false)
  else if String.eqb bytes "garbage"
       then Raise (OtherError "cannot identify image file")
       else Ok (pil.mkImage "RGB" 640 480 false).

Definition pillow_env : env :=
  mkEnv true (run_child demo_env) (json_loads demo_env) decoded pil.thumbnail
        (fun _ => Ok tt) (fun _ => 0) resolve ["srv"].

Definition art_world : world :=
  mkWorld (disk_with "art" [("photo.jpg", fs.File "rgb");
                            ("logo.png", fs.File "rgba");
                            ("icon.png", fs.File "la");
                            ("clear.gif", fs.File "clear palette");
                            ("flat.gif", fs.File "palette");
                            ("grey.png", fs.File "grey");
                            ("scan.tif", fs.File "cmyk");
                            ("broken.png", fs.File "garbage")])
          [row "art" 8 50 1].

(** The dataset [pq]: a corrupt and a valid tabular file. *)
Definition pq_world : world :=
  mkWorld (disk_with "pq" [("good.parquet", fs.File "PAR1...PAR1");
                           ("bad.parquet", fs.File "garbage")])
          [row "pq" 2 18 1].

(** The dataset [mac]: a visible image next to what Finder leaves. *)
Definition mac_world : world :=
  mkWorld (disk_with "mac" [("ok.png", fs.File "png");
                            ("._ok.png", fs.File "fork");
                            (".cache", fs.Dir [("t.parquet", fs.File "PAR1")])])
          [row "mac" 1 3 1].

(** The dataset [wide]: the 26 tabular files [p10.parquet] to
    [p35.parquet]. *)
Definition tabular (i : nat) : string * fs.node :=
  ("p" ++ DecimalString.NilZero.string_of_uint (Nat.to_uint i) ++ ".parquet",
   fs.File "PAR1").

Definition wide_world : world :=
  mkWorld (disk_with "wide" (map tabular (seq 10 26))) [row "wide" 26 104 1].

(** Names that differ in case, and names with a capital and a small
    e-acute (code points 201 and 233). *)
Definition cased : list (string * fs.node) :=
  [("C.txt", fs.File "c"); ("a.txt", fs.File "a"); ("B.txt", fs.File "b");
   ("z_dir", fs.Dir []); ("Y_dir", fs.Dir [])].

Definition accented : list (string * fs.node) :=
  [(String (ascii_of_nat 201) "b.txt", fs.File "b");
   (String (ascii_of_nat 233) "a.txt", fs.File "a")].

(** The dataset [exact]: 2000 files in its root. *)
Definition exact_world : world :=
  mkWorld (disk_with "exact" (many_files 2000)) [row "exact" 2000 2000 1].

(** The dataset [big]: 3000 files in its root. *)
Definition big_world : world :=
  mkWorld (disk_with "big" (many_files 3000)) [row "big" 3000 3000 1].

End sample.

(* ================================================================= *)
(** * Reading a tree *)

Module treeview.

Import browse.

Definition node_name (n : TreeNode) : string :=
  match n with Directory nm _ _ => nm | FileEntry nm _ _ => nm end.

Definition node_path (n : TreeNode) : string :=
  match n with Directory _ p _ => p | FileEntry _ p _ => p end.

Definition node_is_dir (n : TreeNode) : bool :=
  match n with Directory _ _ _ => true | FileEntry _ _ _ => false end.

Definition node_children (n : TreeNode) : list TreeNode :=
  match n with Directory _ _ ch => ch | FileEntry _ _ _ => [] end.

(** Every node strictly below [t], parents before their children. *)
Fixpoint below (t : TreeNode) : list TreeNode :=
  match t with
  | Directory _ _ ch => flat_map (fun c => c :: below c) ch
  | FileEntry _ _ _ => []
  end.

(** The nodes a list of siblings contributes. *)
Definition spread (l : list TreeNode) : list TreeNode :=
  flat_map (fun c => c :: below c) l.

(** The sort key of an emitted node. *)
Definition node_key (n : TreeNode) : bool * string :=
  (negb (node_is_dir n), pystr.lower (node_name n)).

(** [a] is listed before [b]: a file is never ahead of a directory, and
    two entries of one kind are in the order of their lower-cased
    names. *)
Definition child_order (a b : TreeNode) : Prop :=
  (node_is_dir b = true -> node_is_dir a = true)
  /\ (node_is_dir a = node_is_dir b ->
      pystr.ltb (pystr.lower (node_name b)) (pystr.lower (node_name a)) = false).

(** The node stands for an entry whose path relative to the dataset
    root is not hidden. *)
Definition visible (n : TreeNode) : Prop :=
  exists q, node_path n = pathlib.to_str (rel_path q)
            /\ node_name n = last q EmptyString
            /\ storage.is_hidden_or_metadata_path (rel_path q) = false.

(** The invariant of the two counters: the count stays within the cap
    and the flag is only set at the cap. *)
Definition within_cap (max_entries : nat) (st : walk_state) : Prop :=
  entries_seen st <= max_entries
  /\ (truncated st = true -> entries_seen st = max_entries).

(** What a call of [_build_dir_node] on the directory [r] leaves behind:
    the node it returns and the counters after it. *)
Definition built_well (max_entries : nat) (r : list string)
           (s : walk_state) (n : TreeNode) (s' : walk_state) : Prop :=
  node_is_dir n = true
  /\ node_name n = last r EmptyString
  /\ node_path n = _rel r
  /\ entries_seen s' = entries_seen s + List.length (below n)
  /\ (within_cap max_entries s -> within_cap max_entries s')
  /\ Forall visible (below n)
  /\ Forall (fun m => StronglySorted child_order (node_children m)) (n :: below n).

(** The node emitted for a regular file of the dataset root. *)
Definition root_file_node (e : string * fs.node) : TreeNode :=
  FileEntry (fst e) (pathlib.to_str (rel_path [fst e])) (fs.st_size (snd e)).

(** A directory entry that is a regular file with a visible name. *)
Definition plain_visible_file (e : string * fs.node) : bool :=
  fs.is_file (snd e)
  && negb (storage.is_hidden_or_metadata_path (rel_path [fst e])).

(** Some entry of the directory [dir_rel] is not hidden. *)
Definition some_visible (dir_rel : list string) (l : list (string * fs.node)) : bool :=
  existsb (fun e => negb (storage.is_hidden_or_metadata_path
                            (rel_path (dir_rel ++ [fst e])%list))) l.

End treeview.

(** The number of levels below a node. *)
Fixpoint height (t : browse.TreeNode) : nat :=
  match t with
  | browse.Directory _ _ ch =>
      fold_right (fun c acc => Nat.max (S (height c)) acc) 0 ch
  | browse.FileEntry _ _ _ => 0
  end.

(** The name and kind of an emitted node, and of a directory entry. *)
Definition shape (n : browse.TreeNode) : string * bool :=
  (treeview.node_name n, treeview.node_is_dir n).

Definition entry_shape (e : string * fs.node) : string * bool :=
  (fst e, fs.is_dir (snd e)).

(** The entry of the directory [dir_rel] is not hidden. *)
Definition visible_entry (dir_rel : list string) (e : string * fs.node) : bool :=
  negb (storage.is_hidden_or_metadata_path
          (browse.rel_path (dir_rel ++ [fst e])%list)).

(* ================================================================= *)
(** * browse.py: the two listing endpoints *)

Module listing.

(** One element of the answer of [/datasets]. *)
Record Summary : Type := mkSummary {
  s_id : string;
  s_partner_id : string;
  s_name : string;
  s_file_count : nat;
  s_total_size_bytes : nat;
  s_uploaded_at : Z
}.

Definition summary (d : models.Dataset) : Summary :=
  mkSummary (models.id d) (models.partner_id d) (models.name d)
            (models.file_count d) (models.total_size_bytes d)
            (models.uploaded_at d).

(** [list_datasets]. *)
Definition list_datasets (w : world) : list Summary :=
  map summary (datasets w).

(** [dataset_by_name]: the summary and the path. *)
Definition dataset_by_name (partner_id dataset_name : string) (w : world)
  : result (Summary * string) :=
  d <- browse._get_dataset_by_partner_and_name_or_404 partner_id dataset_name w ;;
  Ok (summary d, models.path d).

End listing.

(** The row is one of the partner's datasets of that name. *)
Definition row_matches (partner_id dataset_name : string) (d : models.Dataset) : Prop :=
  models.partner_id d = partner_id /\ models.name d = dataset_name.

(** A segment that [str] and [Path] carry unchanged: no slash, not empty,
    not a single dot. *)
Definition plain_segment (s : string) : Prop :=
  pystr.contains pystr.slash s = false /\ pathlib.keep_segment s = true.

(* ================================================================= *)
(** * The listing a walk is measured against *)

(** The whole listing of a directory down to [k] levels: every entry that
    is not hidden, directories first and by lower-cased name, with no cap
    on the number of entries. *)
Fixpoint full_node (k : nat) (dir_rel : list string)
         (entries : list (string * fs.node)) : browse.TreeNode :=
  browse.Directory
    (last dir_rel EmptyString) (browse._rel dir_rel)
    match k with
    | O => []
    | S k' =>
        map (fun e =>
               match snd e with
               | fs.Dir es => full_node k' (dir_rel ++ [fst e])%list es
               | fs.File _ =>
                   browse.FileEntry
                     (fst e)
                     (pathlib.to_str (browse.rel_path (dir_rel ++ [fst e])%list))
                     (fs.st_size (snd e))
               end)
            (filter (visible_entry dir_rel) (pysort.sorted browse.child_ltb entries))
    end.

(** The node of the whole listing for one entry of [dir_rel]. *)
Definition full_child (k' : nat) (dir_rel : list string) (e : string * fs.node)
  : browse.TreeNode :=
  match snd e with
  | fs.Dir es => full_node k' (dir_rel ++ [fst e])%list es
  | fs.File _ =>
      browse.FileEntry
        (fst e)
        (pathlib.to_str (browse.rel_path (dir_rel ++ [fst e])%list))
        (fs.st_size (snd e))
  end.

(** A tree cut after its first [budget] nodes below the root, counted in
    the order of the walk (a directory before its children, children in
    their listed order): a node past the budget is dropped with
    everything that follows it. *)
Fixpoint prune (budget : nat) (t : browse.TreeNode) {struct t} : browse.TreeNode :=
  match t with
  | browse.Directory nm p ch =>
      browse.Directory nm p
        ((fix cut (b : nat) (l : list browse.TreeNode) {struct l}
            : list browse.TreeNode :=
            match l with
            | [] => []
            | c :: r =>
                match b with
                | O => []
                | S b' => prune b' c :: cut (b' - List.length (treeview.below c)) r
                end
            end) budget ch)
  | browse.FileEntry _ _ _ => t
  end.

Fixpoint prune_list (b : nat) (l : list browse.TreeNode) {struct l}
  : list browse.TreeNode :=
  match l with
  | [] => []
  | c :: r =>
      match b with
      | O => []
      | S b' => prune b' c :: prune_list (b' - List.length (treeview.below c)) r
      end
  end.

(** What a call of [_build_dir_node] on a directory returns when the flag
    is down: the whole listing, [k] levels deep, cut at the budget that is
    left, with the flag raised when the listing did not fit. *)
Definition cut_result (max_entries k : nat) (r : list string)
           (es : list (string * fs.node)) (s : browse.walk_state)
  : option (browse.TreeNode * browse.walk_state) :=
  let whole := full_node k r es in
  let b := max_entries - browse.entries_seen s in
  Some (prune b whole,
        browse.mkWalk (Nat.ltb b (List.length (treeview.below whole)))
                      (browse.entries_seen s
                       + Nat.min b (List.length (treeview.below whole)))).

(* ################################################################# *)
(** * Properties *)

(* ================================================================= *)
(** ** Strings and paths *)

Lemma split_not_nil (sep : ascii) (s : string) : pystr.split sep s <> [].
Proof.
  destruct s as [|c r]; simpl; [discriminate|].
  destruct (Ascii.eqb c sep); [discriminate|].
  destruct (pystr.split sep r); discriminate.
Qed.

Lemma split_no_sep (sep : ascii) (s : string) :
  pystr.contains sep s = false -> pystr.split sep s = [s].
Proof.
  induction s as [|c r IH]; simpl; [reflexivity|].
  intros H. apply orb_false_iff in H. destruct H as [Hc Hr].
  rewrite Hc, (IH Hr). reflexivity.
Qed.

Lemma segments_of_filter (s : string) :
  pathlib.segments_of s
  = filter pathlib.keep_segment (pystr.split pystr.slash s).
Proof.
  unfold pathlib.segments_of.
  destruct (pystr.contains pystr.slash s) eqn:E; [reflexivity|].
  rewrite (split_no_sep _ _ E). simpl.
  destruct (pathlib.keep_segment s); reflexivity.
Qed.

Lemma of_str_splitroot (s : string) :
  pathlib.of_str s
  = mkPath (fst (pathlib.splitroot s))
           (pathlib.segments_of (snd (pathlib.splitroot s))).
Proof.
  unfold pathlib.of_str, pathlib.of_args. simpl.
  destruct s as [|c r]; [reflexivity|].
  cbn [pystr.is_empty].
  destruct (pathlib.splitroot (String c r)) as [rt rel] eqn:E. cbn [fst snd].
  cbn [app].
  destruct (pystr.is_empty rt) eqn:Ert.
  - simpl. rewrite rev_involutive. destruct rt; [reflexivity|discriminate].
  - rewrite rev_involutive. reflexivity.
Qed.

Lemma splitroot_relative (s : string) :
  starts_with_slash s = false -> pathlib.splitroot s = (EmptyString, s).
Proof.
  destruct s as [|c r]; simpl; [reflexivity|]. intros ->. reflexivity.
Qed.

Lemma splitroot_absolute (s : string) :
  starts_with_slash s = true ->
  pystr.is_empty (fst (pathlib.splitroot s)) = false.
Proof.
  destruct s as [|c r]; simpl; [discriminate|]. intros ->.
  match goal with |- context [if ?b then _ else _] => destruct b end; reflexivity.
Qed.

Lemma of_str_is_absolute (s : string) :
  pathlib.is_absolute (pathlib.of_str s) = starts_with_slash s.
Proof.
  rewrite of_str_splitroot. unfold pathlib.is_absolute. cbn [root].
  destruct (starts_with_slash s) eqn:E.
  - rewrite (splitroot_absolute _ E). reflexivity.
  - rewrite (splitroot_relative _ E). reflexivity.
Qed.

Lemma of_str_relative_parts (s : string) :
  starts_with_slash s = false ->
  pathlib.parts (pathlib.of_str s)
  = filter pathlib.keep_segment (pystr.split pystr.slash s).
Proof.
  intros E. rewrite of_str_splitroot, (splitroot_relative _ E).
  unfold pathlib.parts. cbn. apply segments_of_filter.
Qed.

(** No part of a parsed relative path is the empty string: [pathlib] drops
    the empty segments of [a//b] and of a trailing slash. *)
Lemma of_str_parts_nonempty (s : string) :
  starts_with_slash s = false ->
  existsb pystr.is_empty (pathlib.parts (pathlib.of_str s)) = false.
Proof.
  intros E. rewrite (of_str_relative_parts _ E).
  induction (pystr.split pystr.slash s) as [|x l IH]; [reflexivity|].
  simpl. destruct (pathlib.keep_segment x) eqn:K; [|exact IH].
  simpl. rewrite IH. unfold pathlib.keep_segment in K.
  destruct (pystr.is_empty x); [discriminate|reflexivity].
Qed.

Lemma normalized_empty (s : string) :
  pystr.is_empty s = false -> pystr.is_empty (normalized s) = false.
Proof. destruct s; [discriminate|reflexivity]. Qed.

Lemma dotdot_in_parts (s : string) :
  starts_with_slash (normalized s) = false ->
  has_dotdot_segment s ->
  In pystr.dotdot (pathlib.parts (pathlib.of_str (normalized s))).
Proof.
  intros E H. rewrite (of_str_relative_parts _ E).
  apply filter_In. split; [exact H|reflexivity].
Qed.

Lemma mem_In (x : string) (l : list string) :
  pystr.mem x l = true <-> In x l.
Proof.
  unfold pystr.mem. rewrite existsb_exists. split.
  - intros [y [Hy E]]. apply String.eqb_eq in E. subst. exact Hy.
  - intros H. exists x. split; [exact H|apply String.eqb_refl].
Qed.

Lemma proper_prefixes_split {A : Type} (l pre : list A) :
  In pre (pathlib.proper_prefixes l) ->
  exists suf, suf <> [] /\ l = (pre ++ suf)%list.
Proof.
  revert pre. induction l as [|x r IH]; simpl; intros pre H; [contradiction|].
  apply in_app_or in H. destruct H as [H|[H|[]]].
  - apply in_map_iff in H. destruct H as [q [Hq Hin]]. subst pre.
    destruct (IH q Hin) as [suf [Hne Heq]].
    exists suf. split; [exact Hne|]. simpl. now rewrite <- Heq.
  - subst pre. exists (x :: r). split; [discriminate|reflexivity].
Qed.

Lemma path_eqb_parts (a b : Path) :
  pathlib.eqb a b = true <-> pathlib.parts a = pathlib.parts b.
Proof.
  unfold pathlib.eqb.
  destruct (list_eq_dec string_dec (pathlib.parts a) (pathlib.parts b));
    split; congruence.
Qed.

(** [a in p.parents] makes [a] a proper ancestor of [p]: the parts of [p]
    are those of [a] followed by at least one more. *)
Lemma mem_parents_descendant (a p : Path) :
  pathlib.mem a (pathlib.parents p) = true ->
  exists suf, suf <> [] /\ pathlib.parts p = (pathlib.parts a ++ suf)%list.
Proof.
  unfold pathlib.mem, pathlib.parents. rewrite existsb_exists.
  intros [q [Hq E]]. apply path_eqb_parts in E.
  apply in_map_iff in Hq. destruct Hq as [pre [Hpre Hin]]. subst q.
  destruct (proper_prefixes_split _ _ Hin) as [suf [Hne Heq]].
  exists suf. split; [exact Hne|]. rewrite E.
  unfold pathlib.parts. cbn [root segs]. rewrite Heq.
  destruct (pystr.is_empty (root p)); reflexivity.
Qed.

(* ================================================================= *)
(** ** The path guard *)

Section PathGuard.
Import browse_guard.

Variable resolve : resolver.

Lemma browse_relpath_rejects (rel : string) :
  is_absolute_text rel \/ has_dotdot_segment rel ->
  exists detail, _safe_relpath rel = Raise (HTTPException 400 detail).
Proof.
  intros H. unfold _safe_relpath.
  destruct (pystr.is_empty rel) eqn:E; [eauto|].
  fold (normalized rel). rewrite of_str_is_absolute.
  destruct (starts_with_slash (normalized rel)) eqn:A; [eauto|].
  destruct H as [H|H]; [unfold is_absolute_text in H; congruence|].
  apply (dotdot_in_parts _ A) in H. apply mem_In in H. rewrite H. eauto.
Qed.

Lemma storage_relpath_rejects (filename : string) :
  is_absolute_text filename \/ has_dotdot_segment filename ->
  exists msg, storage._safe_relpath filename = Raise (ValueError msg).
Proof.
  intros H. unfold storage._safe_relpath.
  destruct (pystr.is_empty filename) eqn:E; [eauto|].
  fold (normalized filename). rewrite of_str_is_absolute.
  destruct (starts_with_slash (normalized filename)) eqn:A; [eauto|].
  destruct H as [H|H]; [unfold is_absolute_text in H; congruence|].
  apply (dotdot_in_parts _ A) in H.
  assert (X : existsb (fun part => pystr.mem part [pystr.dotdot; EmptyString])
                     (pathlib.parts (pathlib.of_str (normalized filename))) = true).
  { apply existsb_exists. exists pystr.dotdot. split; [exact H|reflexivity]. }
  rewrite X. eauto.
Qed.

Lemma safe_join_inside (root : Path) (rel : string) (full : Path) :
  _safe_join_dataset resolve root rel = Ok full ->
  exists root_resolved,
    resolve root = Some root_resolved
    /\ (pathlib.parts full = pathlib.parts root_resolved
        \/ exists suf, suf <> []
             /\ pathlib.parts full = (pathlib.parts root_resolved ++ suf)%list).
Proof.
  unfold _safe_join_dataset, call_resolve, bind.
  destruct (resolve root) as [rr|]; [|discriminate].
  destruct (_safe_relpath rel) as [r|]; [|discriminate].
  destruct (resolve (pathlib.truediv root r)) as [f|]; [|discriminate].
  destruct (pathlib.eqb f rr) eqn:E; cbn [negb andb].
  - intros [= <-]. exists rr. split; [reflexivity|].
    left. now apply path_eqb_parts.
  - destruct (pathlib.mem rr (pathlib.parents f)) eqn:M; cbn [negb];
      [|discriminate].
    intros [= <-]. exists rr. split; [reflexivity|].
    right. now apply mem_parents_descendant.
Qed.

Lemma safe_join_rejects (root : Path) (rel : string) :
  is_absolute_text rel \/ has_dotdot_segment rel ->
  resolve root <> None ->
  exists detail,
    _safe_join_dataset resolve root rel = Raise (HTTPException 400 detail).
Proof.
  intros H R. unfold _safe_join_dataset, call_resolve, bind.
  destruct (resolve root) as [rr|]; [|congruence].
  destruct (browse_relpath_rejects rel H) as [detail ->]. eauto.
Qed.

End PathGuard.

(** C1. A path that [_safe_join_dataset] accepts resolves to the resolved
    dataset root or to a proper descendant of it, whatever the filesystem
    answers to [resolve]; and a path that is absolute or has a [..]
    segment, once backslashes are slashes, is refused with status 400 by
    both guards (the upload guard raises the [ValueError] that [upload]
    turns into a 400). *)
Theorem path_guard_confines (resolve : browse_guard.resolver)
        (root : Path) (rel : string) :
  (forall full,
      browse_guard._safe_join_dataset resolve root rel = Ok full ->
      exists root_resolved,
        resolve root = Some root_resolved
        /\ (pathlib.parts full = pathlib.parts root_resolved
            \/ exists suf, suf <> []
                 /\ pathlib.parts full = (pathlib.parts root_resolved ++ suf)%list))
  /\ (is_absolute_text rel \/ has_dotdot_segment rel ->
      (exists detail,
          browse_guard._safe_relpath rel = Raise (HTTPException 400 detail))
      /\ (exists msg, storage._safe_relpath rel = Raise (ValueError msg))
      /\ (resolve root <> None ->
          exists detail,
            browse_guard._safe_join_dataset resolve root rel
            = Raise (HTTPException 400 detail))).
Proof.
  split.
  - intros full. apply safe_join_inside.
  - intros H. split; [|split].
    + now apply browse_relpath_rejects.
    + now apply storage_relpath_rejects.
    + intros R. now apply safe_join_rejects.
Qed.

Lemma path_guard_confines_witness :
  (exists root_resolved,
      sample.resolve sample.cats_root = Some root_resolved
      /\ (pathlib.parts (mkPath "/" ["srv"; "data"; "raw"; "acme"; "cats"; "imgs"; "a.png"])
          = pathlib.parts root_resolved
          \/ exists suf, suf <> []
               /\ pathlib.parts (mkPath "/" ["srv"; "data"; "raw"; "acme"; "cats"; "imgs"; "a.png"])
                  = (pathlib.parts root_resolved ++ suf)%list))
  /\ (exists detail,
         browse_guard._safe_join_dataset sample.resolve sample.cats_root "imgs/../../x"
         = Raise (HTTPException 400 detail)).
Proof.
  split.
  - destruct (path_guard_confines sample.resolve sample.cats_root "imgs/a.png")
      as [H _].
    apply H. vm_compute. reflexivity.
  - destruct (path_guard_confines sample.resolve sample.cats_root "imgs/../../x")
      as [_ H].
    destruct H as [_ [_ H]].
    + right. vm_compute. right. left. reflexivity.
    + apply H. vm_compute. discriminate.
Defined.

(** The test for an empty part in [storage._safe_relpath] never fires:
    the parts [pathlib] hands back hold no empty string. *)
Lemma storage_empty_part_test_dead (filename : string) :
  starts_with_slash (normalized filename) = false ->
  existsb (fun part => String.eqb part EmptyString)
          (pathlib.parts (pathlib.of_str (normalized filename))) = false.
Proof.
  intros E. rewrite <- (of_str_parts_nonempty _ E).
  induction (pathlib.parts (pathlib.of_str (normalized filename))) as [|x l IH];
    [reflexivity|].
  simpl. rewrite IH. destruct x; reflexivity.
Qed.

(** C4. The names [a//b] and [a/] split into segments of which one is
    empty, yet both guards accept them and hand back the path without the
    empty segment; the empty-part test of the upload guard cannot fire on
    any relative name. *)
Theorem empty_segments_are_accepted :
  In EmptyString (pystr.split pystr.slash (normalized "a//b"))
  /\ In EmptyString (pystr.split pystr.slash (normalized "a/"))
  /\ storage._safe_relpath "a//b" = Ok (mkPath EmptyString ["a"; "b"])
  /\ storage._safe_relpath "a/" = Ok (mkPath EmptyString ["a"])
  /\ browse_guard._safe_relpath "a//b" = Ok (mkPath EmptyString ["a"; "b"])
  /\ browse_guard._safe_relpath "a/" = Ok (mkPath EmptyString ["a"])
  /\ browse_guard._safe_join_dataset sample.resolve sample.cats_root "a//b"
     = Ok (mkPath "/" ["srv"; "data"; "raw"; "acme"; "cats"; "a"; "b"])
  /\ (forall filename,
         starts_with_slash (normalized filename) = false ->
         existsb (fun part => String.eqb part EmptyString)
                 (pathlib.parts (pathlib.of_str (normalized filename))) = false).
Proof.
  repeat split; try (vm_compute; tauto).
  apply storage_empty_part_test_dead.
Qed.

(* ================================================================= *)
(** ** Orders and [sorted] *)

Lemma str_ltb_asym (a b : string) :
  pystr.ltb a b = true -> pystr.ltb b a = false.
Proof.
  revert b. induction a as [|c a IH]; intros [|d b]; simpl; try congruence.
  destruct (Nat.ltb_spec (nat_of_ascii c) (nat_of_ascii d));
    destruct (Nat.ltb_spec (nat_of_ascii d) (nat_of_ascii c));
    try congruence; try lia.
  apply IH.
Qed.

Lemma str_leb_trans (a b c : string) :
  pystr.ltb b a = false -> pystr.ltb c b = false -> pystr.ltb c a = false.
Proof.
  revert b c. induction a as [|x a IH]; intros [|y b] [|z c]; simpl;
    try congruence.
  destruct (Nat.ltb_spec (nat_of_ascii y) (nat_of_ascii x));
    destruct (Nat.ltb_spec (nat_of_ascii x) (nat_of_ascii y));
    destruct (Nat.ltb_spec (nat_of_ascii z) (nat_of_ascii y));
    destruct (Nat.ltb_spec (nat_of_ascii y) (nat_of_ascii z));
    destruct (Nat.ltb_spec (nat_of_ascii z) (nat_of_ascii x));
    destruct (Nat.ltb_spec (nat_of_ascii x) (nat_of_ascii z));
    try congruence; try lia.
  apply IH.
Qed.

Lemma key_ltb_asym (a b : bool * string) :
  browse.key_ltb a b = true -> browse.key_ltb b a = false.
Proof.
  destruct a as [[|] s], b as [[|] t]; unfold browse.key_ltb; simpl;
    try congruence; apply str_ltb_asym.
Qed.

Lemma key_leb_trans (a b c : bool * string) :
  browse.key_ltb b a = false -> browse.key_ltb c b = false ->
  browse.key_ltb c a = false.
Proof.
  destruct a as [[|] s], b as [[|] t], c as [[|] u]; unfold browse.key_ltb;
    simpl; try congruence; apply str_leb_trans.
Qed.

Section SortedFacts.
Context {A : Type} (ltb : A -> A -> bool).

#[local] Abbreviation may_precede := (pysort.may_precede ltb).

Hypothesis ltb_asym : forall a b, ltb a b = true -> ltb b a = false.
Hypothesis leb_trans :
  forall a b c, ltb b a = false -> ltb c b = false -> ltb c a = false.

Lemma insert_perm (x : A) (l : list A) :
  Permutation (pysort.insert ltb x l) (x :: l).
Proof.
  induction l as [|y r IH]; simpl; [reflexivity|].
  destruct (ltb y x); [|reflexivity].
  rewrite IH. apply perm_swap.
Qed.

Lemma sorted_perm (l : list A) : Permutation (pysort.sorted ltb l) l.
Proof.
  induction l as [|x r IH]; simpl; [reflexivity|].
  rewrite insert_perm. now constructor.
Qed.

Lemma insert_strongly_sorted (x : A) (l : list A) :
  StronglySorted may_precede l ->
  StronglySorted may_precede (pysort.insert ltb x l).
Proof.
  induction 1 as [|y r Hs IH Hy]; simpl.
  - repeat constructor.
  - destruct (ltb y x) eqn:E.
    + constructor; [exact IH|].
      eapply Permutation_Forall; [symmetry; apply insert_perm|].
      constructor; [|exact Hy]. unfold pysort.may_precede. now apply ltb_asym.
    + constructor; [now constructor|].
      constructor; [exact E|].
      eapply Forall_impl; [|exact Hy].
      intros z Hz. unfold pysort.may_precede in *. now apply (leb_trans x y z).
Qed.

Lemma sorted_strongly_sorted (l : list A) :
  StronglySorted may_precede (pysort.sorted ltb l).
Proof.
  induction l as [|x r IH]; simpl; [constructor|].
  now apply insert_strongly_sorted.
Qed.

End SortedFacts.

(* ================================================================= *)
(** ** The tree walker *)

Lemma strongly_sorted_map {A B : Type} (R : B -> B -> Prop) (f : A -> B)
      (l : list A) :
  StronglySorted (fun a b => R (f a) (f b)) l <-> StronglySorted R (map f l).
Proof.
  induction l as [|x r IH]; simpl; split; intros H; try constructor;
    inversion H; subst.
  - now apply IH.
  - now apply Forall_map.
  - now apply IH.
  - now apply Forall_map.
Qed.

Lemma strongly_sorted_impl {A : Type} (R S : A -> A -> Prop) (l : list A) :
  (forall a b, R a b -> S a b) -> StronglySorted R l -> StronglySorted S l.
Proof.
  intros HRS. induction 1 as [|x r Hs IH Hx]; constructor; [exact IH|].
  eapply Forall_impl; [|exact Hx]. intros b. apply HRS.
Qed.

Lemma key_order_child_order (a b : browse.TreeNode) :
  pysort.may_precede browse.key_ltb (treeview.node_key a) (treeview.node_key b) ->
  treeview.child_order a b.
Proof.
  unfold pysort.may_precede, browse.key_ltb, treeview.child_order,
    treeview.node_key. cbn [fst snd].
  destruct (treeview.node_is_dir a), (treeview.node_is_dir b); cbn;
    intros H; split; congruence.
Qed.

Lemma last_snoc {A : Type} (l : list A) (x d : A) : last (l ++ [x]) d = x.
Proof.
  induction l as [|y r IH]; [reflexivity|].
  simpl. destruct (r ++ [x])%list eqn:E; [now destruct r|exact IH].
Qed.

Lemma rel_snoc (l : list string) (x : string) :
  browse._rel (l ++ [x]) = pathlib.to_str (browse.rel_path (l ++ [x])).
Proof. unfold browse._rel. now destruct l. Qed.

Ltac splits := repeat match goal with |- _ /\ _ => split end.

Section WalkFacts.
Import browse treeview.

Variables max_depth max_entries : nat.

#[local] Abbreviation key_sorted := (StronglySorted (pysort.may_precede key_ltb)).
#[local] Abbreviation kids_sorted :=
  (fun m => StronglySorted child_order (node_children m)).

Lemma spread_cons (n : TreeNode) (l : list TreeNode) :
  spread (n :: l) = (n :: below n ++ spread l)%list.
Proof. reflexivity. Qed.

Lemma within_cap_step (st : walk_state) :
  Nat.leb max_entries (entries_seen st) = false ->
  within_cap max_entries st ->
  within_cap max_entries (mkWalk (truncated st) (entries_seen st + 1)).
Proof.
  intros E [H1 H2]. apply Nat.leb_gt in E. split; cbn.
  - lia.
  - intros T. apply H2 in T. lia.
Qed.

Lemma within_cap_stop (st : walk_state) :
  Nat.leb max_entries (entries_seen st) = true ->
  within_cap max_entries st ->
  within_cap max_entries (mkWalk true (entries_seen st)).
Proof.
  intros E [H1 H2]. apply Nat.leb_le in E. split; cbn; [exact H1|lia].
Qed.

Lemma children_loop_facts
      (build : list string -> list (string * fs.node) -> walk_state
               -> option (TreeNode * walk_state))
      (dir_rel : list string) :
  (forall r es s n s',
      build r es s = Some (n, s') -> built_well max_entries r s n s') ->
  forall children acc st out st',
    children_loop max_entries build dir_rel children acc st = Some (out, st') ->
    exists new,
      out = (acc ++ new)%list
      /\ entries_seen st' = entries_seen st + List.length (spread new)
      /\ (within_cap max_entries st -> within_cap max_entries st')
      /\ Forall visible (spread new)
      /\ Forall kids_sorted (spread new)
      /\ Forall (fun n => In (node_key n) (map child_key children)) new
      /\ (key_sorted (map child_key children) -> key_sorted (map node_key new)).
Proof.
  intros Hbuild. induction children as [|[nm child] rest IH];
    intros acc st out st' H.
  - simpl in H. injection H as <- <-. exists []. rewrite app_nil_r.
    cbn. splits; auto; try constructor.
  - cbn [children_loop] in H.
    destruct (storage.is_hidden_or_metadata_path (rel_path (dir_rel ++ [nm])))
      eqn:Hid.
    { destruct (IH _ _ _ _ H) as [new [E [Hn [Hc [Hv [Hs [Hk Hso]]]]]]].
      exists new. splits; auto.
      - eapply Forall_impl; [|exact Hk]. intros n Hin. now right.
      - intros S0. apply Hso. now inversion S0. }
    destruct (Nat.leb max_entries (entries_seen st)) eqn:Cap.
    { injection H as <- <-. exists []. rewrite app_nil_r. cbn.
      splits; auto; try constructor.
      - now apply within_cap_stop.
      - apply (within_cap_stop st Cap H). }
    assert (Hsort : forall n new,
               node_key n = child_key (nm, child) ->
               Forall (fun m => In (node_key m) (map child_key rest)) new ->
               (key_sorted (map child_key rest) -> key_sorted (map node_key new)) ->
               key_sorted (map child_key ((nm, child) :: rest)) ->
               key_sorted (map node_key (n :: new))).
    { intros n new Kn Hk Hso S0. cbn [map] in *.
      apply StronglySorted_inv in S0. destruct S0 as [S1 S2].
      constructor; [now apply Hso|].
      rewrite Kn. apply Forall_map.
      eapply Forall_impl; [|exact Hk]. intros m Hin. cbn beta in Hin.
      rewrite Forall_forall in S2. now apply S2. }
    destruct child as [content|es].
    + destruct (IH _ _ _ _ H) as [new [E [Hn [Hc [Hv [Hs [Hk Hso]]]]]]].
      set (n := FileEntry nm (pathlib.to_str (rel_path (dir_rel ++ [nm])))
                          (fs.st_size (fs.File content))) in *.
      exists (n :: new). rewrite <- app_assoc in E. splits.
      * exact E.
      * rewrite Hn. rewrite spread_cons. cbn. lia.
      * intros W. apply Hc. now apply within_cap_step.
      * rewrite spread_cons. cbn. constructor; [|exact Hv].
        exists (dir_rel ++ [nm])%list. cbn. rewrite last_snoc. auto.
      * rewrite spread_cons. cbn. constructor; [constructor|exact Hs].
      * constructor; [now left|].
        eapply Forall_impl; [|exact Hk]. intros m Hin. now right.
      * apply Hsort; auto.
    + destruct (build (dir_rel ++ [nm])%list es
                      (mkWalk (truncated st) (entries_seen st + 1)))
        as [[n st2]|] eqn:B; [|discriminate].
      destruct (Hbuild _ _ _ _ _ B) as [Bd [Bn [Bp [Be [Bc [Bv Bs]]]]]].
      destruct (IH _ _ _ _ H) as [new [E [Hn [Hc [Hv [Hs [Hk Hso]]]]]]].
      assert (Kn : node_key n = child_key (nm, fs.Dir es)).
      { unfold node_key, child_key. cbn. rewrite Bd, Bn, last_snoc. reflexivity. }
      exists (n :: new). rewrite <- app_assoc in E. splits.
      * exact E.
      * rewrite Hn, Be. rewrite spread_cons. cbn. rewrite length_app. lia.
      * intros W. apply Hc, Bc. now apply within_cap_step.
      * rewrite spread_cons. constructor; [|apply Forall_app; split; assumption].
        exists (dir_rel ++ [nm])%list. rewrite Bp, Bn, rel_snoc. auto.
      * rewrite spread_cons. rewrite app_comm_cons.
        apply Forall_app. split; assumption.
      * constructor; [left; now rewrite Kn|].
        eapply Forall_impl; [|exact Hk]. intros m Hin. now right.
      * apply Hsort; auto.
Qed.

Lemma sorted_children_keys (entries : list (string * fs.node)) :
  key_sorted (map child_key (pysort.sorted child_ltb entries)).
Proof.
  apply (proj1 (strongly_sorted_map (pysort.may_precede key_ltb) child_key _)).
  apply (sorted_strongly_sorted child_ltb).
  - intros a b. apply key_ltb_asym.
  - intros a b c. apply key_leb_trans.
Qed.

Lemma build_dir_node_facts (fuel : nat) :
  forall r es depth s n s',
    _build_dir_node max_depth max_entries fuel r es depth s = Some (n, s') ->
    built_well max_entries r s n s'.
Proof.
  induction fuel as [|fuel IH]; intros r es depth s n s' H; [discriminate|].
  cbn [_build_dir_node] in H.
  destruct (Nat.leb max_depth depth || truncated s).
  - injection H as <- <-. unfold built_well. cbn. splits; auto.
    repeat constructor.
  - destruct (children_loop _ _ _ _ _ _) as [[ch st']|] eqn:L; [|discriminate].
    injection H as <- <-.
    apply children_loop_facts in L; [|intros; eapply IH; eassumption].
    destruct L as [new [E [Hn [Hc [Hv [Hs [_ Hso]]]]]]]. cbn in E. subst ch.
    unfold built_well. cbn [node_is_dir node_name node_path below].
    fold (spread new). splits; auto.
    constructor; [|exact Hs]. cbn.
    apply (strongly_sorted_impl _ _ _ key_order_child_order).
    apply (proj2 (strongly_sorted_map (pysort.may_precede key_ltb) node_key _)).
    apply Hso, sorted_children_keys.
Qed.

Lemma children_loop_total
      (build : list string -> list (string * fs.node) -> walk_state
               -> option (TreeNode * walk_state))
      (dir_rel : list string) :
  (forall r es s, build r es s <> None) ->
  forall children acc st,
    children_loop max_entries build dir_rel children acc st <> None.
Proof.
  intros Hb. induction children as [|[nm child] rest IH]; intros acc st;
    cbn [children_loop]; [discriminate|].
  destruct (storage.is_hidden_or_metadata_path _); [apply IH|].
  destruct (Nat.leb _ _); [discriminate|].
  destruct child as [c|es]; [apply IH|].
  destruct (build _ _ _) as [[n st2]|] eqn:B; [apply IH|].
  now apply Hb in B.
Qed.

(** The recursion ends: fuel above the depth still to go is enough. *)
Lemma build_dir_node_total (fuel : nat) :
  forall r es depth s,
    max_depth - depth < fuel ->
    _build_dir_node max_depth max_entries fuel r es depth s <> None.
Proof.
  induction fuel as [|fuel IH]; intros r es depth s Hf; [lia|].
  cbn [_build_dir_node].
  destruct (Nat.leb max_depth depth) eqn:D; cbn [orb]; [discriminate|].
  destruct (truncated s); [discriminate|].
  apply Nat.leb_gt in D.
  destruct (children_loop _ _ _ _ _ _) as [[ch st']|] eqn:L; [discriminate|].
  exfalso. revert L. apply children_loop_total.
  intros r' es' s'. apply IH. lia.
Qed.

(** At the cap the loop emits nothing more; it raises the flag when an
    entry that is not hidden is still to come. *)
Lemma children_loop_at_cap
      (build : list string -> list (string * fs.node) -> walk_state
               -> option (TreeNode * walk_state))
      (dir_rel : list string) (children : list (string * fs.node))
      (acc : list TreeNode) (st : walk_state) :
  max_entries <= entries_seen st ->
  children_loop max_entries build dir_rel children acc st
  = Some (acc, mkWalk (truncated st || some_visible dir_rel children)
                      (entries_seen st)).
Proof.
  intros Cap. apply Nat.leb_le in Cap.
  induction children as [|[nm child] rest IH]; cbn [children_loop].
  - cbn. rewrite orb_false_r. now destruct st.
  - unfold some_visible. cbn [existsb fst].
    destruct (storage.is_hidden_or_metadata_path _); cbn [negb orb].
    + exact IH.
    + rewrite Cap, orb_true_r. reflexivity.
Qed.

(** A directory past the raised flag is emitted without children. *)
Lemma build_dir_node_truncated (fuel : nat) (r : list string)
      (es : list (string * fs.node)) (depth : nat) (s : walk_state) :
  truncated s = true ->
  _build_dir_node max_depth max_entries (S fuel) r es depth s
  = Some (Directory (last r EmptyString) (_rel r) [], s).
Proof.
  intros T. cbn [_build_dir_node]. rewrite T, orb_true_r. reflexivity.
Qed.

(** The loop over regular visible files of the dataset root. *)
Lemma children_loop_flat
      (build : list string -> list (string * fs.node) -> walk_state
               -> option (TreeNode * walk_state)) :
  forall children acc t k,
    forallb plain_visible_file children = true ->
    children_loop max_entries build [] children acc (mkWalk t k)
    = Some ((acc ++ map root_file_node (firstn (max_entries - k) children))%list,
            mkWalk (t || Nat.ltb (max_entries - k) (List.length children))
                   (k + Nat.min (List.length children) (max_entries - k))).
Proof.
  induction children as [|[nm child] rest IH]; intros acc t k Hall.
  - cbn. rewrite firstn_nil, app_nil_r, orb_false_r, Nat.add_0_r. reflexivity.
  - cbn [forallb] in Hall. apply andb_true_iff in Hall. destruct Hall as [Hp Hall].
    unfold plain_visible_file in Hp. cbn [fst snd] in Hp.
    apply andb_true_iff in Hp. destruct Hp as [Hf Hv].
    apply negb_true_iff in Hv.
    cbn [children_loop app entries_seen truncated]. rewrite Hv.
    destruct (Nat.leb max_entries k) eqn:Cap.
    + apply Nat.leb_le in Cap.
      replace (max_entries - k) with 0 by lia.
      cbn. rewrite app_nil_r, orb_true_r, Nat.add_0_r. reflexivity.
    + apply Nat.leb_gt in Cap.
      destruct child as [c|es]; [|discriminate].
      rewrite (IH _ _ _ Hall).
      replace (max_entries - k) with (S (max_entries - (k + 1))) by lia.
      cbn [firstn map List.length]. rewrite <- app_assoc. cbn [app].
      unfold root_file_node at 2. cbn [fst snd].
      assert (F : Nat.ltb (S (max_entries - (k + 1))) (S (List.length rest))
                  = Nat.ltb (max_entries - (k + 1)) (List.length rest))
        by reflexivity.
      rewrite F. do 3 f_equal. lia.
Qed.

(** A dataset root that only holds regular visible files. *)
Lemma build_tree_flat (entries : list (string * fs.node)) :
  0 < max_depth ->
  forallb plain_visible_file entries = true ->
  build_tree max_depth max_entries entries
  = Some (Directory EmptyString EmptyString
                    (map root_file_node
                         (firstn max_entries (pysort.sorted child_ltb entries))),
          mkWalk (Nat.ltb max_entries (List.length entries))
                 (Nat.min (List.length entries) max_entries)).
Proof.
  intros Hd Hall. unfold build_tree. cbn [_build_dir_node truncated].
  destruct (Nat.leb_spec max_depth 0) as [?|_]; [lia|]. cbn [orb].
  pose proof (sorted_perm child_ltb entries) as P.
  rewrite children_loop_flat.
  - rewrite Nat.sub_0_r. cbn [app orb Nat.add].
    rewrite (Permutation_length P). reflexivity.
  - apply forallb_forall. intros x Hx.
    rewrite forallb_forall in Hall. apply Hall.
    eapply Permutation_in; eassumption.
Qed.

End WalkFacts.

(* ================================================================= *)
(** ** The walk against the whole listing *)

Lemma prune_directory (b : nat) (nm p : string) (ch : list browse.TreeNode) :
  prune b (browse.Directory nm p ch) = browse.Directory nm p (prune_list b ch).
Proof. reflexivity. Qed.

Lemma prune_path (b : nat) (t : browse.TreeNode) :
  treeview.node_path (prune b t) = treeview.node_path t.
Proof. now destruct t. Qed.

(** Cutting a tree keeps the first nodes of its walk, path by path. *)
Lemma prune_paths :
  forall (t : browse.TreeNode) (b : nat),
    map treeview.node_path (treeview.below (prune b t))
    = firstn b (map treeview.node_path (treeview.below t)).
Proof.
  fix IH 1. intros [nm p ch|nm p sz] b.
  - rewrite prune_directory. cbn [treeview.below].
    revert b. induction ch as [|c r IHr]; intros b.
    + cbn. now rewrite firstn_nil.
    + destruct b as [|b]; [reflexivity|].
      cbn [prune_list flat_map map app firstn].
      rewrite prune_path. f_equal.
      rewrite !map_app, firstn_app, length_map, IH, IHr. reflexivity.
  - cbn. now rewrite firstn_nil.
Qed.

Lemma full_node_step (k' : nat) (dir_rel : list string)
      (entries : list (string * fs.node)) :
  full_node (S k') dir_rel entries
  = browse.Directory
      (last dir_rel EmptyString) (browse._rel dir_rel)
      (map (full_child k' dir_rel)
           (filter (visible_entry dir_rel) (pysort.sorted browse.child_ltb entries))).
Proof. reflexivity. Qed.

Lemma cap_flag_split (b x y : nat) :
  (Nat.ltb b x || Nat.ltb (b - x) y) = Nat.ltb b (x + y).
Proof.
  destruct (Nat.ltb_spec b x), (Nat.ltb_spec (b - x) y),
    (Nat.ltb_spec b (x + y)); try reflexivity; lia.
Qed.

Section WalkRefines.
Import browse treeview.

Variables max_depth max_entries : nat.

Lemma children_loop_prunes (k' : nat)
      (build : list string -> list (string * fs.node) -> walk_state
               -> option (TreeNode * walk_state))
      (dir_rel : list string) :
  (forall r es s, truncated s = false -> build r es s = cut_result max_entries k' r es s) ->
  forall children acc st,
    (truncated st = true -> max_entries <= entries_seen st) ->
    children_loop max_entries build dir_rel children acc st
    = Some ((acc ++ prune_list (max_entries - entries_seen st)
                      (map (full_child k' dir_rel)
                           (filter (visible_entry dir_rel) children)))%list,
            mkWalk (truncated st
                    || Nat.ltb (max_entries - entries_seen st)
                         (List.length
                            (spread (map (full_child k' dir_rel)
                                         (filter (visible_entry dir_rel) children)))))
                   (entries_seen st
                    + Nat.min (max_entries - entries_seen st)
                        (List.length
                           (spread (map (full_child k' dir_rel)
                                        (filter (visible_entry dir_rel) children)))))).
Proof.
  intros Hb. induction children as [|[nm child] rest IH]; intros acc st Inv.
  - cbn. rewrite app_nil_r, orb_false_r, Nat.min_0_r, Nat.add_0_r.
    now destruct st.
  - cbn [children_loop].
    destruct (storage.is_hidden_or_metadata_path (rel_path (dir_rel ++ [nm])))
      eqn:Hid.
    { replace (filter (visible_entry dir_rel) ((nm, child) :: rest))
        with (filter (visible_entry dir_rel) rest)
        by (cbn [filter]; unfold visible_entry at 2; cbn [fst];
            now rewrite Hid).
      now apply IH. }
    replace (filter (visible_entry dir_rel) ((nm, child) :: rest))
      with ((nm, child) :: filter (visible_entry dir_rel) rest)
      by (cbn [filter]; unfold visible_entry at 2; cbn [fst];
          now rewrite Hid).
    cbn [map]. set (F := map (full_child k' dir_rel)
                             (filter (visible_entry dir_rel) rest)) in *.
    rewrite spread_cons.
    destruct (Nat.leb_spec max_entries (entries_seen st)) as [Cap|Cap].
    + replace (max_entries - entries_seen st) with 0 by lia.
      cbn. now rewrite app_nil_r, orb_true_r, Nat.add_0_r.
    + assert (T : truncated st = false).
      { destruct (truncated st); [|reflexivity]. specialize (Inv eq_refl). lia. }
      destruct (max_entries - entries_seen st) as [|b] eqn:EB; [lia|].
      cbn [prune_list]. rewrite T. cbn [orb].
      destruct child as [content|es].
      * rewrite IH by (cbn; intros X; congruence).
        cbn [entries_seen truncated]. fold F.
        replace (max_entries - (entries_seen st + 1)) with b by lia.
        unfold full_child. cbn [snd fst prune below app List.length orb].
        rewrite Nat.sub_0_r, <- app_assoc. cbn [app].
        change (Nat.ltb (S b) (S (List.length (spread F))))
          with (Nat.ltb b (List.length (spread F))).
        do 3 f_equal. lia.
      * unfold full_child. cbn [snd fst].
        set (whole := full_node k' (dir_rel ++ [nm]) es) in *.
        rewrite (Hb _ _ (mkWalk false (entries_seen st + 1)) eq_refl).
        unfold cut_result. cbn [entries_seen]. fold whole.
        replace (max_entries - (entries_seen st + 1)) with b by lia.
        rewrite IH.
        2:{ cbn [truncated entries_seen]. intros X. apply Nat.ltb_lt in X. lia. }
        cbn [entries_seen truncated]. fold F.
        replace (max_entries
                 - (entries_seen st + 1 + Nat.min b (List.length (below whole))))
          with (b - List.length (below whole)) by lia.
        rewrite <- app_assoc. cbn [app List.length].
        rewrite length_app, cap_flag_split.
        change (Nat.ltb (S b) (S (List.length (below whole)
                                  + List.length (spread F))))
          with (Nat.ltb b (List.length (below whole) + List.length (spread F))).
        do 3 f_equal. lia.
Qed.

(** With the flag down and fuel above the depth still to go, a call
    returns the whole listing of its directory cut at the budget left. *)
Lemma build_dir_node_prunes (fuel : nat) :
  forall r es depth s,
    max_depth - depth < fuel -> truncated s = false ->
    _build_dir_node max_depth max_entries fuel r es depth s
    = cut_result max_entries (max_depth - depth) r es s.
Proof.
  induction fuel as [|fuel IH]; intros r es depth s Hf T; [lia|].
  cbn [_build_dir_node]. rewrite T, orb_false_r. unfold cut_result.
  destruct (Nat.leb_spec max_depth depth) as [D|D].
  - replace (max_depth - depth) with 0 by lia.
    cbn [full_node prune below flat_map List.length].
    rewrite Nat.min_0_r, Nat.add_0_r.
    destruct s as [t e]. cbn in T. subst t. reflexivity.
  - replace (max_depth - depth) with (S (max_depth - S depth)) by lia.
    rewrite full_node_step, prune_directory.
    rewrite (children_loop_prunes (max_depth - S depth)).
    + rewrite T. cbn [app orb below]. reflexivity.
    + intros r' es' s' T'. apply IH; [lia|exact T'].
    + intros X. congruence.
Qed.

(** The walk from the root is the whole listing cut after [max_entries]
    entries; it counts the smaller of the cap and the size of the whole
    listing and raises the flag exactly when the whole listing is
    larger than the cap. *)
Lemma build_tree_prunes (entries : list (string * fs.node)) :
  build_tree max_depth max_entries entries
  = Some (prune max_entries (full_node max_depth [] entries),
          mkWalk (Nat.ltb max_entries
                    (List.length (below (full_node max_depth [] entries))))
                 (Nat.min max_entries
                    (List.length (below (full_node max_depth [] entries))))).
Proof.
  unfold build_tree. rewrite build_dir_node_prunes; [|lia|reflexivity].
  unfold cut_result. cbn [entries_seen]. now rewrite !Nat.sub_0_r.
Qed.

End WalkRefines.

Lemma dataset_tree_flat (partner_id dataset_name : string) (w : world)
      (d : models.Dataset) (entries : list (string * fs.node)) :
  browse._get_dataset_by_partner_and_name_or_404 partner_id dataset_name w = Ok d ->
  fs.lookup (segs (pathlib.of_str (models.path d))) (disk w) = Some (fs.Dir entries) ->
  forallb treeview.plain_visible_file entries = true ->
  exists t,
    browse.dataset_tree partner_id dataset_name w
    = Ok (browse.mkTreeResponse partner_id dataset_name (models.id d) EmptyString
            5 2000 (Nat.min (List.length entries) 2000)
            (Nat.ltb 2000 (List.length entries)) t)
    /\ List.length (treeview.node_children t) = Nat.min (List.length entries) 2000.
Proof.
  intros Hd Hl Hall. unfold browse.dataset_tree. rewrite Hd. cbn [bind].
  rewrite Hl. rewrite (build_tree_flat 5 2000 entries); [|lia|exact Hall].
  eexists. split; [reflexivity|].
  cbn [treeview.node_children]. rewrite length_map, length_firstn.
  rewrite (Permutation_length (sorted_perm browse.child_ltb entries)). lia.
Qed.

(** C5. The walk from the root returns the whole listing, [max_depth]
    levels deep and without the hidden entries, cut after its first
    [max_entries] entries in the order of the walk; its counter is the
    smaller of [max_entries] and the number of entries of the whole
    listing, and the flag is raised exactly when the whole listing has
    more entries than [max_entries]. The counter is the number of nodes
    below the root, never exceeds [max_entries], and the flag is only
    raised at the cap; no emitted node is hidden; the paths of the emitted
    nodes are the first [max_entries] paths of the whole listing in the
    order of the walk. Once the counter is at
    the cap the loop emits nothing more and raises the flag at the next
    entry that is not hidden, and a directory visited with the flag raised
    gets no children. A root that holds [n] regular visible files yields
    [min n max_entries] entries and is truncated exactly when
    [max_entries < n]; with 3000 files the endpoint (cap 2000) answers
    [truncated = true], [entries_returned = 2000]. A cap of 3 reached
    inside the sub-directory [sub] of three files leaves [sub] with two
    children, omits the file after [sub] and raises the flag. *)
Theorem tree_walk_is_capped :
  (forall max_depth max_entries entries,
      browse.build_tree max_depth max_entries entries
      = Some (prune max_entries (full_node max_depth [] entries),
              browse.mkWalk
                (Nat.ltb max_entries
                   (List.length (treeview.below (full_node max_depth [] entries))))
                (Nat.min max_entries
                   (List.length (treeview.below (full_node max_depth [] entries))))))
  /\ (forall max_depth max_entries entries,
      exists t st,
        browse.build_tree max_depth max_entries entries = Some (t, st)
        /\ browse.entries_seen st = List.length (treeview.below t)
        /\ browse.entries_seen st <= max_entries
        /\ (browse.truncated st = true -> browse.entries_seen st = max_entries)
        /\ Forall treeview.visible (treeview.below t))
  /\ (forall max_entries build dir_rel children acc st,
         max_entries <= browse.entries_seen st ->
         browse.children_loop max_entries build dir_rel children acc st
         = Some (acc, browse.mkWalk
                        (browse.truncated st || treeview.some_visible dir_rel children)
                        (browse.entries_seen st)))
  /\ (forall max_depth max_entries fuel r es depth s,
         browse.truncated s = true ->
         browse._build_dir_node max_depth max_entries (S fuel) r es depth s
         = Some (browse.Directory (last r EmptyString) (browse._rel r) [], s))
  /\ (forall max_depth max_entries entries,
         0 < max_depth ->
         forallb treeview.plain_visible_file entries = true ->
         exists t,
           browse.build_tree max_depth max_entries entries
           = Some (t, browse.mkWalk (Nat.ltb max_entries (List.length entries))
                                    (Nat.min (List.length entries) max_entries))
           /\ List.length (treeview.node_children t)
              = Nat.min (List.length entries) max_entries)
  /\ (exists t,
         browse.dataset_tree "acme" "big" sample.big_world
         = Ok (browse.mkTreeResponse "acme" "big" "id-big" EmptyString
                                     5 2000 2000 true t)
         /\ List.length (treeview.node_children t) = 2000)
  /\ (forall max_depth max_entries entries,
         exists t st,
           browse.build_tree max_depth max_entries entries = Some (t, st)
           /\ map treeview.node_path (treeview.below t)
              = firstn max_entries
                  (map treeview.node_path
                       (treeview.below (full_node max_depth [] entries))))
  /\ (exists t,
         browse.build_tree 5 3 [("sub", fs.Dir (sample.many_files 3));
                                ("z.bin", fs.File "z")]
         = Some (t, browse.mkWalk true 3)
         /\ map (fun c => (treeview.node_name c,
                           List.length (treeview.node_children c)))
                (treeview.node_children t)
            = [("sub", 2)]).
Proof.
  splits.
  8: { eexists. split; vm_compute; reflexivity. }
  7: { intros max_depth max_entries entries. eexists. eexists.
       split; [apply build_tree_prunes|apply prune_paths]. }
  - intros. apply build_tree_prunes.
  - intros max_depth max_entries entries. unfold browse.build_tree.
    destruct (browse._build_dir_node max_depth max_entries (S max_depth) []
                entries 0 (browse.mkWalk false 0)) as [[t st]|] eqn:B.
    + exists t, st. split; [reflexivity|].
      destruct (build_dir_node_facts _ _ _ _ _ _ _ _ _ B)
        as [_ [_ [_ [Be [Bc [Bv _]]]]]].
      cbn in Be.
      destruct Bc as [C1 C2]; [split; cbn; [lia|discriminate]|].
      splits; auto.
    + exfalso. revert B. apply build_dir_node_total. lia.
  - intros. now apply children_loop_at_cap.
  - intros. now apply build_dir_node_truncated.
  - intros max_depth max_entries entries Hd Hall.
    rewrite (build_tree_flat max_depth max_entries entries Hd Hall).
    eexists. split; [reflexivity|].
    cbn [treeview.node_children]. rewrite length_map, length_firstn.
    rewrite (Permutation_length (sorted_perm browse.child_ltb entries)). lia.
  - destruct (dataset_tree_flat "acme" "big" sample.big_world
                (sample.row "big" 3000 3000 1) (sample.many_files 3000))
      as [t [E L]];
      [vm_compute; reflexivity | vm_compute; reflexivity
       | vm_compute; reflexivity |].
    exists t. split; [exact E|exact L].
Qed.

Lemma tree_walk_is_capped_witness :
  exists t,
    browse.build_tree 3 2 (sample.many_files 3) = Some (t, browse.mkWalk true 2).
Proof.
  destruct tree_walk_is_capped as [_ [_ [_ [_ [H _]]]]].
  destruct (H 3 2 (sample.many_files 3)) as [t [E _]].
  - lia.
  - reflexivity.
  - exists t. exact E.
Defined.

(** With exactly [max_entries] entries the counter reaches the cap and
    the flag stays down: 2000 files under the endpoint's cap of 2000. *)
Lemma cap_reached_without_truncation :
  exists t,
    browse.dataset_tree "acme" "exact" sample.exact_world
    = Ok (browse.mkTreeResponse "acme" "exact" "id-exact" EmptyString
                                5 2000 2000 false t)
    /\ List.length (treeview.node_children t) = 2000.
Proof.
  destruct (dataset_tree_flat "acme" "exact" sample.exact_world
              (sample.row "exact" 2000 2000 1) (sample.many_files 2000))
    as [t [E L]];
    [vm_compute; reflexivity | vm_compute; reflexivity | vm_compute; reflexivity |].
  exists t. split; [exact E|exact L].
Qed.

(** C7. In every directory node of a walk the children are in key order:
    no file stands before a directory, and two entries of one kind stand
    in the order of their lower-cased names. The directory [b.txt],
    [A_dir/], [a.txt] is listed as [A_dir], [a.txt], [b.txt]; the names
    [C.txt], [a.txt], [B.txt], [z_dir/], [Y_dir/] are listed as [Y_dir],
    [z_dir], [a.txt], [B.txt], [C.txt], and a name with a capital e-acute
    is ordered as the one with the small letter. Lower-casing shifts the
    capitals of 65..90 and of 192..222 (215 apart) by 32, leaves every
    other code point below 256 alone, and is idempotent. *)
Theorem tree_children_are_ordered :
  (forall max_depth max_entries entries t st,
      browse.build_tree max_depth max_entries entries = Some (t, st) ->
      Forall (fun m => StronglySorted treeview.child_order (treeview.node_children m))
             (t :: treeview.below t))
  /\ (exists t st,
         browse.build_tree 5 2000 sample.mixed = Some (t, st)
         /\ map treeview.node_name (treeview.node_children t)
            = ["A_dir"; "a.txt"; "b.txt"])
  /\ (exists t st,
         browse.build_tree 5 2000 sample.cased = Some (t, st)
         /\ map treeview.node_name (treeview.node_children t)
            = ["Y_dir"; "z_dir"; "a.txt"; "B.txt"; "C.txt"])
  /\ (exists t st,
         browse.build_tree 5 2000 sample.accented = Some (t, st)
         /\ map treeview.node_name (treeview.node_children t)
            = [String (ascii_of_nat 233) "a.txt"; String (ascii_of_nat 201) "b.txt"])
  /\ (forall c,
         pystr.lower_char (pystr.lower_char c) = pystr.lower_char c)
  /\ map (fun n => nat_of_ascii (pystr.lower_char (ascii_of_nat n)))
         [64; 65; 90; 91; 97; 122; 191; 192; 214; 215; 216; 222; 223; 255]
     = [64; 97; 122; 91; 97; 122; 191; 224; 246; 215; 248; 254; 223; 255].
Proof.
  splits.
  - intros max_depth max_entries entries t st B.
    now destruct (build_dir_node_facts _ _ _ _ _ _ _ _ _ B)
      as [_ [_ [_ [_ [_ [_ Bs]]]]]].
  - eexists. eexists. split; vm_compute; reflexivity.
  - eexists. eexists. split; vm_compute; reflexivity.
  - eexists. eexists. split; vm_compute; reflexivity.
  - intros [[|] [|] [|] [|] [|] [|] [|] [|]]; reflexivity.
  - reflexivity.
Qed.

Lemma tree_children_are_ordered_witness :
  Forall (fun m => StronglySorted treeview.child_order (treeview.node_children m))
         (let t := browse.Directory EmptyString EmptyString
                     [browse.Directory "A_dir" "A_dir" [];
                      browse.FileEntry "a.txt" "a.txt" 1;
                      browse.FileEntry "b.txt" "b.txt" 2] in
          t :: treeview.below t).
Proof.
  destruct tree_children_are_ordered as [H _].
  apply (H 5 2000 sample.mixed _ (browse.mkWalk false 3)).
  vm_compute. reflexivity.
Defined.

(* ================================================================= *)
(** ** The disk under [mkdir] and [open] *)

Section DiskFacts.
Import diskview.

Lemma rglob_cons (nm : string) (c : fs.node) (r : list (string * fs.node)) :
  fs.rglob (fs.Dir ((nm, c) :: r))
  = (([nm], c) :: map (fun q => (nm :: fst q, snd q)) (fs.rglob c)
       ++ fs.rglob (fs.Dir r))%list.
Proof. reflexivity. Qed.

Lemma get_set_entry (k s : string) (v : fs.node) (es : list (string * fs.node)) :
  fs.get_entry k (fs.set_entry s v es)
  = if String.eqb s k then Some v else fs.get_entry k es.
Proof.
  induction es as [|[k0 x] r IH]; simpl.
  - destruct (String.eqb_spec s k); reflexivity.
  - destruct (String.eqb_spec k0 s) as [->|N]; simpl.
    + destruct (String.eqb_spec s k); reflexivity.
    + rewrite IH. destruct (String.eqb_spec k0 k) as [->|N'];
        [|reflexivity].
      destruct (String.eqb_spec s k); congruence.
Qed.

Lemma files_kept_refl (n : fs.node) : files_kept n n.
Proof. intros q x H F. eauto. Qed.

Lemma node_kept_refl (n : fs.node) : node_kept n n.
Proof. unfold node_kept. auto using files_kept_refl. Qed.

Lemma disk_kept_refl (d : fs.node) : disk_kept d d.
Proof. intros r n H. eauto using node_kept_refl. Qed.

Lemma node_kept_trans (a b c : fs.node) :
  node_kept a b -> node_kept b c -> node_kept a c.
Proof.
  intros [F1 [D1 K1]] [F2 [D2 K2]]. unfold node_kept. splits; auto.
  intros q x H F. destruct (K1 q x H F) as [x' [H' F']]. eauto.
Qed.

Lemma disk_kept_trans (a b c : fs.node) :
  disk_kept a b -> disk_kept b c -> disk_kept a c.
Proof.
  intros H1 H2 r n L. destruct (H1 r n L) as [n1 [L1 K1]].
  destruct (H2 r n1 L1) as [n2 [L2 K2]]. eauto using node_kept_trans.
Qed.

(** Replacing the entry [s] by a node that keeps it keeps the directory. *)
Lemma set_entry_files_kept (s : string) (v : fs.node)
      (es : list (string * fs.node)) :
  (forall x, fs.get_entry s es = Some x -> node_kept x v) ->
  files_kept (fs.Dir es) (fs.Dir (fs.set_entry s v es)).
Proof.
  induction es as [|[k x] r IH]; intros Hv q y Hin Hf; [contradiction|].
  rewrite rglob_cons in Hin. cbn [fs.set_entry]. cbn [fs.get_entry] in Hv.
  destruct (String.eqb k s) eqn:E.
  - destruct (Hv x eq_refl) as [Hfile [_ Hk]]. rewrite rglob_cons.
    destruct Hin as [Hin|Hin].
    + injection Hin as <- <-. exists v. split; [now left|auto].
    + apply in_app_or in Hin. destruct Hin as [Hin|Hin].
      * apply in_map_iff in Hin. destruct Hin as [[q0 y0] [Heq Hin]].
        cbn in Heq. injection Heq as <- <-.
        destruct (Hk q0 y0 Hin Hf) as [y' [Hin' Hf']].
        exists y'. split; [|exact Hf']. right. apply in_or_app. left.
        apply in_map_iff. exists (q0, y'). auto.
      * exists y. split; [|exact Hf]. right. apply in_or_app. now right.
  - rewrite rglob_cons. destruct Hin as [Hin|Hin].
    + exists y. split; [now left|exact Hf].
    + apply in_app_or in Hin. destruct Hin as [Hin|Hin].
      * exists y. split; [|exact Hf]. right. apply in_or_app. now left.
      * destruct (IH Hv q y Hin Hf) as [y' [Hin' Hf']].
        exists y'. split; [|exact Hf']. right. apply in_or_app. now right.
Qed.

Lemma set_entry_disk_kept (s : string) (v : fs.node)
      (es : list (string * fs.node)) :
  (forall x, fs.get_entry s es = Some x -> disk_kept x v) ->
  disk_kept (fs.Dir es) (fs.Dir (fs.set_entry s v es)).
Proof.
  intros Hv [|k r] n L.
  - injection L as <-. eexists. split; [reflexivity|].
    unfold node_kept. splits; auto. apply set_entry_files_kept.
    intros x Hx. destruct (Hv x Hx [] x eq_refl) as [n' [L' K]].
    now injection L' as <-.
  - cbn [fs.lookup] in *. rewrite get_set_entry.
    destruct (String.eqb_spec s k) as [->|N].
    + destruct (fs.get_entry k es) as [x|] eqn:G; [|discriminate].
      apply (Hv x eq_refl r n L).
    + destruct (fs.get_entry k es) as [x|]; [|discriminate].
      eauto using node_kept_refl.
Qed.

Lemma mkdir_p_kept (p : list string) :
  forall d d', fs.mkdir_p p d = Some d' -> disk_kept d d'.
Proof.
  induction p as [|s rest IH]; intros [c|es] d' H; try discriminate.
  - injection H as <-. apply disk_kept_refl.
  - cbn [fs.mkdir_p] in H.
    destruct (fs.mkdir_p rest _) as [sub'|] eqn:M; [|discriminate].
    injection H as <-. apply set_entry_disk_kept.
    intros x Hx. rewrite Hx in M. now apply IH.
Qed.

Lemma file_disk_kept (c c' : string) : disk_kept (fs.File c) (fs.File c').
Proof.
  intros [|k r] n L; [|discriminate]. injection L as <-.
  eexists. split; [reflexivity|]. unfold node_kept. splits; auto.
  intros q x [].
Qed.

Lemma write_at_kept (p : list string) (content : string) :
  forall d d', fs.write_at p content d = Some d' -> disk_kept d d'.
Proof.
  induction p as [|s rest IH]; intros [c|es] d' H; try discriminate.
  cbn [fs.write_at] in H. destruct rest as [|s2 rest].
  - assert (E : d' = fs.Dir (fs.set_entry s (fs.File content) es)
                /\ forall x, fs.get_entry s es = Some x -> exists c, x = fs.File c).
    { destruct (fs.get_entry s es) as [[c|es']|]; try discriminate;
        injection H as <-; split; auto; intros x [= <-]; eauto. }
    destruct E as [-> E]. apply set_entry_disk_kept.
    intros x Hx. destruct (E x Hx) as [c ->]. apply file_disk_kept.
  - destruct (fs.get_entry s es) as [sub|] eqn:G; [|discriminate].
    destruct (fs.write_at (s2 :: rest) content sub) as [sub'|] eqn:W;
      [|discriminate].
    injection H as <-. apply set_entry_disk_kept.
    intros x Hx. rewrite G in Hx. injection Hx as <-. now apply IH.
Qed.

End DiskFacts.

(* ================================================================= *)
(** ** Ingestion *)

Section UploadFacts.
Import diskview.

Lemma mkdir_p_is_dir (p : list string) :
  forall d d', fs.mkdir_p p d = Some d' -> fs.path_is_dir p d' = true.
Proof.
  unfold fs.path_is_dir.
  induction p as [|s rest IH]; intros [c|es] d' H; try discriminate.
  - injection H as <-. reflexivity.
  - cbn [fs.mkdir_p] in H.
    destruct (fs.mkdir_p rest _) as [sub'|] eqn:M; [|discriminate].
    injection H as <-. cbn [fs.lookup].
    rewrite get_set_entry, String.eqb_refl. now apply IH in M.
Qed.

Lemma disk_kept_is_dir (p : list string) (d d' : fs.node) :
  disk_kept d d' -> fs.path_is_dir p d = true -> fs.path_is_dir p d' = true.
Proof.
  unfold fs.path_is_dir. intros K H.
  destruct (fs.lookup p d) as [n|] eqn:L; [|discriminate].
  destruct (K p n L) as [n' [-> [_ [D _]]]]. auto.
Qed.

Lemma save_loop_kept (root : Path) (files : list UploadFile) :
  forall d d' r, store.save_loop root files d = (d', r) -> disk_kept d d'.
Proof.
  induction files as [|f rest IH]; intros d d' r H; cbn [store.save_loop] in H.
  - injection H as <- _. apply disk_kept_refl.
  - destruct (storage._safe_relpath (filename f)) as [rel|e].
    2:{ injection H as <- _. apply disk_kept_refl. }
    destruct (storage.is_hidden_or_metadata_path rel); [now apply IH in H|].
    destruct (existsb _ _).
    { injection H as <- _. apply disk_kept_refl. }
    destruct (fs.mkdir_p _ d) as [d1|] eqn:M.
    2:{ injection H as <- _. apply disk_kept_refl. }
    apply mkdir_p_kept in M.
    destruct (pystr.contains _ _).
    { injection H as <- _. exact M. }
    destruct (fs.write_at _ _ d1) as [d2|] eqn:W.
    + apply write_at_kept in W. apply IH in H.
      eauto using disk_kept_trans.
    + injection H as <- _. exact M.
Qed.

Lemma safe_segment_ok (value field_name v : string) :
  storage._safe_segment value field_name = Ok v -> v = value.
Proof.
  unfold storage._safe_segment.
  repeat match goal with |- context [if ?b then _ else _] => destruct b end;
    congruence.
Qed.

Lemma save_files_kept (partner_id dataset_name : string)
      (files : list UploadFile) (d d' : fs.node) (r : result Path) :
  store.save_files partner_id dataset_name files d = (d', r) -> disk_kept d d'.
Proof.
  unfold store.save_files.
  destruct (storage._safe_segment partner_id _) as [p|e].
  2:{ intros [= <- _]. apply disk_kept_refl. }
  destruct (storage._safe_segment dataset_name _) as [n|e].
  2:{ intros [= <- _]. apply disk_kept_refl. }
  destruct (fs.mkdir_p _ d) as [d1|] eqn:M.
  2:{ intros [= <- _]. apply disk_kept_refl. }
  apply mkdir_p_kept in M.
  destruct (store.save_loop _ files d1) as [d2 [u|e]] eqn:L;
    apply save_loop_kept in L; intros [= <- _];
    eauto using disk_kept_trans.
Qed.

(** When [save_files] returns, the storage root is a directory. *)
Lemma save_files_ok (partner_id dataset_name : string)
      (files : list UploadFile) (d d' : fs.node) (root : Path) :
  store.save_files partner_id dataset_name files d = (d', Ok root) ->
  root = store.root_of partner_id dataset_name
  /\ fs.path_is_dir (segs root) d' = true.
Proof.
  unfold store.save_files.
  destruct (storage._safe_segment partner_id _) as [p|e] eqn:Sp;
    [|discriminate].
  destruct (storage._safe_segment dataset_name _) as [n|e] eqn:Sn;
    [|discriminate].
  apply safe_segment_ok in Sp, Sn. subst p n.
  destruct (fs.mkdir_p _ d) as [d1|] eqn:M; [|discriminate].
  destruct (store.save_loop _ files d1) as [d2 [u|e]] eqn:L; [|discriminate].
  intros [= <- <-]. split; [reflexivity|].
  apply save_loop_kept in L. apply mkdir_p_is_dir in M.
  eauto using disk_kept_is_dir.
Qed.

Lemma safe_segment_failure (value field : string) (e : exn) :
  field = "partner_id" \/ field = "dataset_name" ->
  storage._safe_segment value field = Raise e -> other_failure e.
Proof.
  unfold storage._safe_segment. intros F.
  repeat match goal with |- context [if ?b then _ else _] => destruct b end;
    intros [= <-]; destruct F as [-> | ->]; cbn; discriminate.
Qed.

Lemma safe_relpath_failure (filename : string) (e : exn) :
  storage._safe_relpath filename = Raise e -> other_failure e.
Proof.
  unfold storage._safe_relpath.
  repeat match goal with |- context [if ?b then _ else _] => destruct b end;
    intros [= <-]; cbn; discriminate.
Qed.

Lemma save_loop_failure (root : Path) (files : list UploadFile) :
  forall d d' e, store.save_loop root files d = (d', Raise e) -> other_failure e.
Proof.
  induction files as [|f rest IH]; intros d d' e H; cbn [store.save_loop] in H;
    [discriminate|].
  destruct (storage._safe_relpath (filename f)) as [rel|e0] eqn:S.
  2:{ injection H as _ <-. eapply safe_relpath_failure; eassumption. }
  destruct (storage.is_hidden_or_metadata_path rel); [now apply IH in H|].
  destruct (existsb _ _); [injection H as _ <-; discriminate|].
  destruct (fs.mkdir_p _ d) as [d1|]; [|injection H as _ <-; exact I].
  destruct (pystr.contains _ _); [injection H as _ <-; discriminate|].
  destruct (fs.write_at _ _ d1) as [d2|]; [|injection H as _ <-; exact I].
  now apply IH in H.
Qed.

Lemma save_files_failure (partner_id dataset_name : string)
      (files : list UploadFile) (d d' : fs.node) (e : exn) :
  store.save_files partner_id dataset_name files d = (d', Raise e) ->
  other_failure e.
Proof.
  unfold store.save_files.
  destruct (storage._safe_segment partner_id _) as [p|e0] eqn:Sp.
  2:{ intros [= _ <-]. eapply safe_segment_failure; [|eassumption]. auto. }
  destruct (storage._safe_segment dataset_name _) as [n|e0] eqn:Sn.
  2:{ intros [= _ <-]. eapply safe_segment_failure; [|eassumption]. auto. }
  destruct (fs.mkdir_p _ d) as [d1|]; [|intros [= _ <-]; exact I].
  destruct (store.save_loop _ files d1) as [d2 [u|e0]] eqn:L; [discriminate|].
  intros [= _ <-]. eapply save_loop_failure; eassumption.
Qed.

(** What [upload] does, by the outcome of [save_files] and the manifest. *)
Lemma upload_empty_manifest (dataset_id : string) (now : Z)
      (partner_id dataset_name : string) (files : list UploadFile)
      (w w' : world) :
  upload.upload dataset_id now partner_id dataset_name files w
  = (w', Raise (HTTPException 400 upload.no_uploadable))
  <-> exists root,
      store.save_files partner_id dataset_name files (disk w) = (disk w', Ok root)
      /\ upload.all_files root (disk w') = []
      /\ datasets w' = datasets w.
Proof.
  unfold upload.upload.
  destruct (store.save_files partner_id dataset_name files (disk w))
    as [d [root|e]] eqn:S.
  - destruct (upload.all_files root d) as [|f fl] eqn:A; cbn [List.length Nat.eqb].
    + split.
      * intros [= <-]. exists root. cbn. auto.
      * intros [r [[= Hd <-] [_ Hr]]]. destruct w' as [d' t']. cbn in *.
        subst. reflexivity.
    + split; [discriminate|].
      intros [r [[= Hd <-] [E _]]]. rewrite <- Hd in E. congruence.
  - apply save_files_failure in S.
    split.
    + destruct e; cbn in S; intros [= ]; subst; contradiction.
    + intros [r [[= ] _]].
Qed.

End UploadFacts.

Lemma all_files_kept (root : Path) (d d' : fs.node) :
  diskview.disk_kept d d' ->
  forall q x, In (q, x) (upload.all_files root d) ->
              exists x', In (q, x') (upload.all_files root d').
Proof.
  intros K q x H. unfold upload.all_files in *.
  destruct (fs.lookup (segs root) d) as [r|] eqn:L; [|contradiction].
  destruct (K _ _ L) as [r' [-> [_ [_ Kf]]]].
  apply filter_In in H. destruct H as [Hin Hp]. cbn [fst snd] in Hp.
  apply andb_true_iff in Hp. destruct Hp as [Hf Hv].
  destruct (Kf q x Hin Hf) as [x' [Hin' Hf']].
  exists x'. apply filter_In. split; [exact Hin'|].
  cbn [fst snd]. now rewrite Hf', Hv.
Qed.

(** C8. When [upload] succeeds, the row it inserts carries the count and
    the total size of the regular files that are not hidden and lie below
    the storage root on the disk as [save_files] left it; each such file
    that was below the root before the request is still listed and so is
    counted. Uploading [new.txt] and [.DS_Store] into the root that holds
    [a.txt] registers two files and seven bytes after a single write. *)
Theorem manifest_is_a_rewalk :
  (forall dataset_id now partner_id dataset_name files w w' answer,
      upload.upload dataset_id now partner_id dataset_name files w = (w', Ok answer) ->
      let root := store.root_of partner_id dataset_name in
      store.save_files partner_id dataset_name files (disk w) = (disk w', Ok root)
      /\ (exists row,
             datasets w' = (datasets w ++ [row])%list
             /\ models.file_count row = List.length (upload.all_files root (disk w'))
             /\ models.total_size_bytes row
                = upload.total_size (upload.all_files root (disk w')))
      /\ (forall q x, In (q, x) (upload.all_files root (disk w)) ->
                      exists x', In (q, x') (upload.all_files root (disk w'))))
  /\ (snd (upload.upload "id2" 2 "acme" "cats"
                         [mkUpload "new.txt" "hi"; mkUpload ".DS_Store" "junk"]
                         sample.cats_world) = Ok "id2"
      /\ map (fun r => (models.file_count r, models.total_size_bytes r))
             (datasets (fst (upload.upload "id2" 2 "acme" "cats"
                               [mkUpload "new.txt" "hi"; mkUpload ".DS_Store" "junk"]
                               sample.cats_world)))
         = [(1, 5); (2, 7)]).
Proof.
  split; [|split; vm_compute; reflexivity].
  intros dataset_id now partner_id dataset_name files w w' answer H root.
  unfold upload.upload in H.
  destruct (store.save_files partner_id dataset_name files (disk w))
    as [d [rt|e]] eqn:S.
  2:{ destruct e; discriminate. }
  destruct (save_files_ok _ _ _ _ _ _ S) as [-> _]. fold root in H.
  destruct (Nat.eqb _ 0); [discriminate|].
  injection H as <- _. cbn [disk datasets]. splits.
  - reflexivity.
  - eexists. splits; reflexivity.
  - apply all_files_kept. eapply save_files_kept. exact S.
Qed.

Lemma manifest_is_a_rewalk_witness :
  exists row,
    datasets (fst (upload.upload "id2" 2 "acme" "cats"
                     [mkUpload "new.txt" "hi"] sample.cats_world))
    = (datasets sample.cats_world ++ [row])%list
    /\ models.file_count row = 2.
Proof.
  destruct manifest_is_a_rewalk as [H _].
  destruct (H "id2" 2%Z "acme" "cats" [mkUpload "new.txt" "hi"] sample.cats_world
              (fst (upload.upload "id2" 2 "acme" "cats"
                      [mkUpload "new.txt" "hi"] sample.cats_world))
              "id2") as [_ [[row [E [C _]]] _]].
  - vm_compute. reflexivity.
  - exists row. split; [exact E|]. rewrite C. vm_compute. reflexivity.
Defined.

(** C10. An upload that is refused for an empty manifest has nevertheless
    left the storage root on disk as a directory, and has inserted no row.
    On an empty disk, uploading only [.DS_Store] and [sub/._b.jpg] is
    refused and leaves the empty directory [data/raw/acme/cats]. *)
Theorem refused_upload_leaves_root :
  (forall dataset_id now partner_id dataset_name files w w',
      upload.upload dataset_id now partner_id dataset_name files w
      = (w', Raise (HTTPException 400 upload.no_uploadable)) ->
      fs.path_is_dir (segs (store.root_of partner_id dataset_name)) (disk w') = true
      /\ datasets w' = datasets w)
  /\ (fs.exists_ (segs (store.root_of "acme" "cats")) (disk sample.empty_world) = false
      /\ upload.upload "id1" 1 "acme" "cats"
                       [mkUpload ".DS_Store" "junk"; mkUpload "sub/._b.jpg" "fork"]
                       sample.empty_world
         = (mkWorld (sample.disk_with "cats" []) [],
            Raise (HTTPException 400 upload.no_uploadable))).
Proof.
  split; [|split; vm_compute; reflexivity].
  intros dataset_id now partner_id dataset_name files w w' H.
  apply upload_empty_manifest in H. destruct H as [root [S [_ R]]].
  split; [|exact R].
  destruct (save_files_ok _ _ _ _ _ _ S) as [-> D]. exact D.
Qed.

Lemma refused_upload_leaves_root_witness :
  fs.path_is_dir (segs (store.root_of "acme" "cats")) (sample.disk_with "cats" []) = true
  /\ @nil models.Dataset = [].
Proof.
  destruct refused_upload_leaves_root as [H _].
  apply (H "id1" 1%Z "acme" "cats" [mkUpload ".DS_Store" "junk"]
           sample.empty_world (mkWorld (sample.disk_with "cats" []) [])).
  vm_compute. reflexivity.
Defined.

(** C3. Into the root that already holds [a.txt], an upload whose only
    file is [.DS_Store] (skipped, nothing written) is not refused: it
    answers with the new id and inserts a row that counts the old file.
    The refusal depends on the disk, not on the submitted files: [upload]
    raises its empty-manifest error exactly when [save_files] returned
    and no visible regular file lies below the root afterwards. *)
Theorem hidden_only_upload_is_registered :
  forallb skipped [mkUpload ".DS_Store" "junk"] = true
  /\ upload.upload "id2" 2 "acme" "cats" [mkUpload ".DS_Store" "junk"]
                   sample.cats_world
     = (mkWorld (disk sample.cats_world)
                [sample.row "cats" 1 5 1;
                 models.mkDataset "id2" "acme" "cats" "mixed"
                                  "data/raw/acme/cats" 1 5 2],
        Ok "id2")
  /\ (forall dataset_id now partner_id dataset_name files w w',
         upload.upload dataset_id now partner_id dataset_name files w
         = (w', Raise (HTTPException 400 upload.no_uploadable))
         <-> exists root,
             store.save_files partner_id dataset_name files (disk w)
             = (disk w', Ok root)
             /\ upload.all_files root (disk w') = []
             /\ datasets w' = datasets w).
Proof.
  splits; try (vm_compute; reflexivity).
  intros. apply upload_empty_manifest.
Qed.

(* ================================================================= *)
(** ** Previews *)

Section PreviewFacts.
Import preview.

Variable e : env.

Lemma parquet_loop_entries (root : Path) (n : nat) :
  forall files pp errs pp' errs',
    parquet_loop e root n files pp errs = (pp', errs') ->
    exists newp newe,
      pp' = (pp ++ newp)%list /\ errs' = (errs ++ newe)%list
      /\ Permutation (map pq_path newp ++ map err_path newe) (map reported files)
      /\ Forall (fun x => err_type x = "parquet") newe.
Proof.
  induction files as [|f rest IH]; intros pp errs pp' errs' H;
    cbn [parquet_loop] in H.
  - injection H as <- <-. exists [], []. rewrite !app_nil_r. cbn. auto.
  - destruct (_parquet_preview_subprocess e (full_path root f) n) as [p|x].
    + destruct (IH _ _ _ _ H) as [newp [newe [E1 [E2 [P F]]]]].
      eexists (_ :: newp), newe. rewrite <- app_assoc in E1.
      splits; [exact E1|exact E2| |exact F].
      cbn. now constructor.
    + destruct (IH _ _ _ _ H) as [newp [newe [E1 [E2 [P F]]]]].
      eexists newp, (_ :: newe). rewrite <- app_assoc in E2.
      splits; [exact E1|exact E2| |constructor; [reflexivity|exact F]].
      cbn. rewrite <- Permutation_middle. now constructor.
Qed.

Lemma image_loop_entries (partner_id dataset_name : string) :
  forall files ip errs ip' errs',
    image_loop e partner_id dataset_name files ip errs = (ip', errs') ->
    exists newi newe,
      ip' = (ip ++ newi)%list /\ errs' = (errs ++ newe)%list
      /\ Permutation (map im_path newi ++ map err_path newe) (map reported files)
      /\ Forall (fun x => err_type x = "image") newe.
Proof.
  induction files as [|f rest IH]; intros ip errs ip' errs' H;
    cbn [image_loop] in H.
  - injection H as <- <-. exists [], []. rewrite !app_nil_r. cbn. auto.
  - destruct (image_open e (file_bytes (snd f))) as [img|x].
    + destruct (IH _ _ _ _ H) as [newi [newe [E1 [E2 [P F]]]]].
      eexists (_ :: newi), newe. rewrite <- app_assoc in E1.
      splits; [exact E1|exact E2| |exact F].
      cbn. now constructor.
    + destruct (IH _ _ _ _ H) as [newi [newe [E1 [E2 [P F]]]]].
      eexists newi, (_ :: newe). rewrite <- app_assoc in E2.
      splits; [exact E1|exact E2| |constructor; [reflexivity|exact F]].
      cbn. rewrite <- Permutation_middle. now constructor.
Qed.

(** A timeout or a non-zero exit of the child is an exception of
    [_parquet_preview_subprocess]. *)
Lemma child_failure_raises (root : Path) (n : nat) (f : listed) :
  child_failed e root n f ->
  exists x, _parquet_preview_subprocess e (full_path root f) n = Raise x.
Proof.
  unfold child_failed, _parquet_preview_subprocess.
  destruct (run_child e _ n) as [|rc out err]; [eauto|].
  intros H. apply Z.eqb_neq in H. rewrite H. cbn [negb]. eauto.
Qed.

Lemma preview_entries (partner_id dataset_name : string) (n : nat) (w : world)
      (d : models.Dataset) (r : fs.node) :
  browse._get_dataset_by_partner_and_name_or_404 partner_id dataset_name w = Ok d ->
  fs.lookup (segs (pathlib.of_str (models.path d))) (disk w) = Some r ->
  pil_installed e = true ->
  exists resp perr ierr,
    preview_dataset e partner_id dataset_name n w = Ok resp
    /\ errors resp = (perr ++ ierr)%list
    /\ Permutation (map pq_path (parquet_previews resp) ++ map err_path perr)
                   (map reported (parquet_files (pathlib.of_str (models.path d)) r))
    /\ Permutation (map im_path (image_previews resp) ++ map err_path ierr)
                   (map reported (image_files (pathlib.of_str (models.path d)) r))
    /\ Forall (fun x => err_type x = "parquet") perr
    /\ Forall (fun x => err_type x = "image") ierr.
Proof.
  intros Hd Hl Hp. unfold preview_dataset. rewrite Hd. cbn [bind].
  rewrite Hl, Hp. cbn [negb].
  destruct (parquet_loop e _ n _ [] []) as [pp errs] eqn:L1.
  destruct (image_loop e partner_id dataset_name _ [] errs) as [ip errs'] eqn:L2.
  destruct (parquet_loop_entries _ _ _ _ _ _ _ L1) as [newp [newe [-> [-> [P1 F1]]]]].
  destruct (image_loop_entries _ _ _ _ _ _ _ L2) as [newi [newe' [-> [-> [P2 F2]]]]].
  cbn [app] in *.
  eexists. exists newe, newe'. splits; [reflexivity|reflexivity| | | |]; auto.
Qed.

End PreviewFacts.




(** C2. In the dataset that holds [ok.png], [._ok.png] and
    [.cache/t.parquet], the last two are hidden; the tree, the manifest
    and the random thumbnail choice leave them out (as they do on every
    disk), but [preview_dataset] previews both: its two scans apply no
    hidden-file filter. *)
Theorem preview_shows_hidden_files :
  storage.is_hidden_or_metadata_path (browse.rel_path [".cache"; "t.parquet"]) = true
  /\ storage.is_hidden_or_metadata_path (browse.rel_path ["._ok.png"]) = true
  /\ (exists resp,
         preview.preview_dataset sample.demo_env "acme" "mac" 5 sample.mac_world
         = Ok resp
         /\ map preview.pq_path (preview.parquet_previews resp) = [".cache/t.parquet"]
         /\ map preview.im_path (preview.image_previews resp) = ["._ok.png"; "ok.png"])
  /\ (exists resp,
         browse.dataset_tree "acme" "mac" sample.mac_world = Ok resp
         /\ map treeview.node_name (treeview.node_children (browse.tree resp))
            = ["ok.png"]
         /\ browse.entries_returned resp = 1)
  /\ map fst (upload.all_files (store.root_of "acme" "mac") (disk sample.mac_world))
     = [["ok.png"]]
  /\ (forall root d q x,
         In (q, x) (upload.all_files root d) ->
         storage.is_hidden_or_metadata_path (browse.rel_path q) = false)
  /\ (forall r q x,
         In (q, x) (thumb.candidates r) ->
         storage.is_hidden_or_metadata_path (browse.rel_path q) = false).
Proof.
  splits; try reflexivity.
  - eexists. split; [vm_compute; reflexivity|]. split; reflexivity.
  - eexists. split; [vm_compute; reflexivity|]. split; reflexivity.
  - intros root d q x H. unfold upload.all_files in H.
    destruct (fs.lookup (segs root) d); [|contradiction].
    apply filter_In in H. destruct H as [_ H]. cbn [fst snd] in H.
    apply andb_true_iff in H. destruct H as [_ H].
    now apply negb_true_iff in H.
  - intros r q x H. unfold thumb.candidates in H.
    apply filter_In in H. destruct H as [_ H]. cbn [fst snd] in H.
    apply andb_true_iff in H. destruct H as [_ H].
    now apply negb_true_iff in H.
Qed.

(* ================================================================= *)
(** ** Thumbnails *)

Lemma ceil_div_le (num den b : nat) :
  1 <= den -> num <= b * den -> pil.ceil_div num den <= b.
Proof.
  intros D H. unfold pil.ceil_div.
  pose proof (Nat.div_mod_eq num den) as E.
  pose proof (Nat.mod_upper_bound num den ltac:(lia)) as U.
  destruct (Nat.eqb_spec (num mod den) 0) as [Z|Z]; nia.
Qed.

Lemma floor_le_ceil (num den : nat) : num / den <= pil.ceil_div num den.
Proof. unfold pil.ceil_div. destruct (Nat.eqb _ 0); lia. Qed.

Lemma round_aspect_le (lo hi b : nat) (c : bool) :
  lo <= hi -> hi <= b -> 1 <= b -> pil.round_aspect lo hi c <= b.
Proof. unfold pil.round_aspect. destruct c; lia. Qed.

Lemma round_aspect_pos (lo hi : nat) (c : bool) : 1 <= pil.round_aspect lo hi c.
Proof. unfold pil.round_aspect. lia. Qed.

(** The size Pillow computes for an image that does not fit the box lies
    in the box, is no larger than the image, and fills the box in one
    direction. *)
Lemma thumbnail_size_fits (w h x y : nat) :
  1 <= w -> 1 <= h -> 1 <= x -> 1 <= y ->
  Nat.leb w x && Nat.leb h y = false ->
  1 <= fst (pil.thumbnail_size w h x y) <= x
  /\ 1 <= snd (pil.thumbnail_size w h x y) <= y
  /\ fst (pil.thumbnail_size w h x y) <= w
  /\ snd (pil.thumbnail_size w h x y) <= h
  /\ (fst (pil.thumbnail_size w h x y) = x
      \/ snd (pil.thumbnail_size w h x y) = y).
Proof.
  intros W H X Y B. apply andb_false_iff in B.
  unfold pil.thumbnail_size.
  destruct (Nat.leb_spec (w * y) (x * h)) as [A|A]; cbn [fst snd].
  - assert (Hy : y < h).
    { destruct B as [B|B]; apply Nat.leb_gt in B; nia. }
    pose proof (floor_le_ceil (y * w) h).
    assert (pil.ceil_div (y * w) h <= x) by (apply ceil_div_le; nia).
    assert (pil.ceil_div (y * w) h <= w) by (apply ceil_div_le; nia).
    match goal with |- context [pil.round_aspect ?a ?b ?c] =>
      pose proof (round_aspect_pos a b c) end.
    repeat split; try lia; try (apply round_aspect_le; lia).
  - assert (Hx : x < w).
    { destruct B as [B|B]; apply Nat.leb_gt in B; nia. }
    pose proof (floor_le_ceil (x * h) w).
    assert (pil.ceil_div (x * h) w <= y) by (apply ceil_div_le; nia).
    assert (pil.ceil_div (x * h) w <= h) by (apply ceil_div_le; nia).
    match goal with |- context [pil.round_aspect ?a ?b ?c] =>
      pose proof (round_aspect_pos a b c) end.
    repeat split; try lia; try (apply round_aspect_le; lia).
Qed.

(** [Image.thumbnail] never leaves the box, never enlarges a picture of
    positive width, and keeps the mode and [info]. *)
Lemma pil_thumbnail_fits (img out : pil.Image) (x y : nat) :
  1 <= x -> 1 <= y ->
  pil.thumbnail img (x, y) = Ok out ->
  pil.width out <= x /\ pil.height out <= y
  /\ (1 <= pil.width img -> pil.width out <= pil.width img)
  /\ pil.height out <= pil.height img
  /\ pil.mode out = pil.mode img
  /\ pil.info_transparency out = pil.info_transparency img.
Proof.
  intros X Y. unfold pil.thumbnail.
  destruct (Nat.leb (pil.width img) x && Nat.leb (pil.height img) y) eqn:B.
  - intros E. injection E as <-.
    apply andb_true_iff in B. destruct B as [B1 B2].
    apply Nat.leb_le in B1, B2. splits; auto.
  - destruct (Nat.eqb_spec (pil.height img) 0) as [Z|Z]; cbn [orb];
      [discriminate|].
    destruct (Nat.eqb_spec y 0) as [Z'|Z']; [lia|].
    intros E. injection E as <-.
    cbn [pil.width pil.height pil.mode pil.info_transparency].
    destruct (Nat.eq_dec (pil.width img) 0) as [W0|W0].
    + rewrite W0. unfold pil.thumbnail_size. cbn [Nat.mul Nat.leb fst snd].
      rewrite Nat.mul_0_r. unfold pil.ceil_div, pil.round_aspect.
      rewrite Nat.Div0.mod_0_l, Nat.Div0.div_0_l. cbn [Nat.eqb].
      rewrite W0 in B. cbn [Nat.leb andb] in B. apply Nat.leb_gt in B.
      cbn [Nat.mul Nat.sub Nat.add pil.distance Nat.ltb Nat.leb Nat.max].
      splits; auto; lia.
    + destruct (thumbnail_size_fits (pil.width img) (pil.height img) x y)
        as [[_ F1] [[_ F2] [F3 [F4 _]]]]; try lia; [exact B|].
      splits; auto.
Qed.

Lemma has_alpha_modes (img : pil.Image) :
  thumb.has_alpha img = true
  <-> pil.mode img = "RGBA" \/ pil.mode img = "LA"
      \/ (pil.mode img = "P" /\ pil.info_transparency img = true).
Proof.
  unfold thumb.has_alpha, pystr.mem. cbn [existsb].
  rewrite !orb_true_iff, andb_true_iff, !String.eqb_eq.
  split.
  - intros [[H|[H|H]]|H]; auto. discriminate.
  - intros [H|[H|H]]; auto.
Qed.

Section ThumbFacts.
Import thumb.

Variable e : env.
Hypothesis pillow : pillow_resizes e.

Lemma render_bounded (content : string) (saved : pil.Saved) (media : string) :
  render e content = Ok (saved, media) ->
  exists src,
    image_open e content = Ok src
    /\ pil.thumbnail src (256, 256)
       = Ok (pil.mkImage (pil.mode src)
                         (pil.width (pil.picture saved))
                         (pil.height (pil.picture saved))
                         (pil.info_transparency src))
    /\ pil.width (pil.picture saved) <= 256
    /\ pil.height (pil.picture saved) <= 256
    /\ (1 <= pil.width src -> pil.width (pil.picture saved) <= pil.width src)
    /\ pil.height (pil.picture saved) <= pil.height src
    /\ (pil.mode src = "RGBA" \/ pil.mode src = "LA"
        \/ (pil.mode src = "P" /\ pil.info_transparency src = true) ->
        pil.format saved = "PNG" /\ media = "image/png"
        /\ pil.quality saved = None
        /\ pil.mode (pil.picture saved) = pil.mode src
        /\ pil.info_transparency (pil.picture saved) = pil.info_transparency src)
    /\ (pil.mode src <> "RGBA" -> pil.mode src <> "LA" ->
        (pil.mode src = "P" -> pil.info_transparency src = false) ->
        pil.format saved = "JPEG" /\ media = "image/jpeg"
        /\ pil.quality saved = Some 85 /\ pil.optimize saved = true
        /\ (pil.mode src = "L" -> pil.mode (pil.picture saved) = "L")
        /\ (pil.mode src <> "L" -> pil.mode (pil.picture saved) = "RGB")).
Proof.
  unfold render, unreadable.
  destruct (image_open e content) as [src|x]; [|discriminate].
  destruct (pil_thumbnail e src _) as [img|x] eqn:T; [|discriminate].
  apply pillow in T. unfold thumbnail_max_size in T.
  destruct (pil_thumbnail_fits src img 256 256) as [W [H [W' [H' [M I]]]]];
    [lia|lia|exact T|].
  assert (A : has_alpha img = has_alpha src).
  { unfold has_alpha. now rewrite M, I. }
  assert (Sz : pil.thumbnail src (256, 256)
               = Ok (pil.mkImage (pil.mode src) (pil.width img)
                                 (pil.height img) (pil.info_transparency src))).
  { rewrite T, <- M, <- I. now destruct img. }
  intros R. exists src. split; [reflexivity|].
  destruct (has_alpha img) eqn:Ha.
  - destruct (pil_save e _); [|discriminate]. injection R as <- <-.
    cbn [pil.picture pil.format pil.quality pil.optimize].
    splits; try assumption.
    + intros _. splits; auto.
    + intros N1 N2 N3. symmetry in A. apply has_alpha_modes in A.
      destruct A as [A|[A|[A1 A2]]]; try contradiction.
      rewrite (N3 A1) in A2. discriminate.
  - assert (NA : ~ (pil.mode src = "RGBA" \/ pil.mode src = "LA"
                    \/ (pil.mode src = "P" /\ pil.info_transparency src = true))).
    { intros C. apply has_alpha_modes in C. congruence. }
    destruct (pystr.mem (pil.mode img) ["RGB"; "L"]) eqn:Md; cbn [negb] in R.
    + destruct (pil_save e _); [|discriminate]. injection R as <- <-.
      cbn [pil.picture pil.format pil.quality pil.optimize].
      splits; try assumption.
      * intros C. contradiction.
      * intros _ _ _. splits; try reflexivity.
        -- intros L. now rewrite M.
        -- intros NL. apply mem_In in Md. rewrite M in Md.
           destruct Md as [Md|[Md|[]]]; congruence.
    + destruct (pil_save e _); [|discriminate]. injection R as <- <-.
      cbn [pil.picture pil.format pil.quality pil.optimize
           pil.convert pil.width pil.height pil.mode].
      splits; try assumption.
      * intros C. contradiction.
      * intros _ _ _. splits; try reflexivity.
        intros L. rewrite M, L in Md. discriminate.
Qed.

Lemma thumbnail_renders (partner_id dataset_name : string)
      (path : option string) (w : world) (saved : pil.Saved) (media : string) :
  thumbnail e partner_id dataset_name path w = Ok (saved, media) ->
  exists content, render e content = Ok (saved, media).
Proof.
  unfold thumbnail, bind.
  destruct (browse._get_dataset_by_partner_and_name_or_404 _ _ _) as [d|];
    [|discriminate].
  match goal with
  | |- match ?t with Ok _ => _ | Raise _ => _ end = _ -> _ =>
      destruct t as [[[c|es]|]|]; try discriminate
  end.
  destruct (pil_installed e); cbn [negb]; [|discriminate]. eauto.
Qed.

End ThumbFacts.



(* ================================================================= *)
(** ** Worked examples *)

Example parse_nested :
  pathlib.of_str "my_folder/subdir/file.parquet"
  = mkPath EmptyString ["my_folder"; "subdir"; "file.parquet"].
Proof. reflexivity. Qed.

Example parse_rooted :
  pathlib.of_str "//etc///passwd/./x/" = mkPath "//" ["etc"; "passwd"; "x"].
Proof. reflexivity. Qed.

Example parents_of_abc :
  pathlib.parents (pathlib.of_str "/a/b/c")
  = [mkPath "/" ["a"; "b"]; mkPath "/" ["a"]; mkPath "/" []].
Proof. reflexivity. Qed.

Example hidden_names :
  map (fun s => storage.is_hidden_or_metadata_path (pathlib.of_str s))
      [".DS_Store"; "a/._b.jpg"; "x/.git/config"; "Thumbs.db"; "images/1.png"]
  = [true; true; true; true; false].
Proof. reflexivity. Qed.

Example fresh_upload_counts_two :
  let files := [mkUpload "a.txt" "aa"; mkUpload ".DS_Store" "junk";
                mkUpload "sub/b.txt" "bbb"] in
  let w := fst (upload.upload "id1" 1 "acme" "cats" files sample.empty_world) in
  map models.file_count (datasets w) = [2]
  /\ map models.total_size_bytes (datasets w) = [5]
  /\ map fst (fs.rglob (disk w))
     = [["data"]; ["data"; "raw"]; ["data"; "raw"; "acme"];
        ["data"; "raw"; "acme"; "cats"];
        ["data"; "raw"; "acme"; "cats"; "a.txt"];
        ["data"; "raw"; "acme"; "cats"; "sub"];
        ["data"; "raw"; "acme"; "cats"; "sub"; "b.txt"]].
Proof. vm_compute. auto. Qed.

Example newest_row_wins :
  let w := mkWorld (fs.Dir []) [sample.row "cats" 1 5 1;
                                models.mkDataset "later" "acme" "cats" "mixed"
                                                 "data/raw/acme/cats" 2 7 9] in
  browse._get_dataset_by_partner_and_name_or_404 "acme" "cats" w
  = Ok (models.mkDataset "later" "acme" "cats" "mixed" "data/raw/acme/cats" 2 7 9).
Proof. reflexivity. Qed.

Example exactly_at_the_cap :
  exists t, browse.build_tree 5 3 (sample.many_files 3)
            = Some (t, browse.mkWalk false 3).
Proof. eexists. vm_compute. reflexivity. Qed.

(* ================================================================= *)
(** ** Single segments and the hidden-file filter *)

Lemma no_slash_not_rooted (s : string) :
  pystr.contains pystr.slash s = false -> starts_with_slash s = false.
Proof.
  destruct s as [|c r]; [reflexivity|]. cbn.
  intros H. apply orb_false_iff in H. tauto.
Qed.

Lemma of_str_single (s : string) :
  s <> EmptyString -> s <> pystr.dot ->
  pystr.contains pystr.slash s = false ->
  pathlib.of_str s = mkPath EmptyString [s].
Proof.
  intros Hne Hdot Hs. rewrite of_str_splitroot.
  rewrite (splitroot_relative _ (no_slash_not_rooted _ Hs)). cbn [fst snd].
  unfold pathlib.segments_of. rewrite Hs. unfold pathlib.keep_segment.
  destruct (String.eqb_spec s pystr.dot) as [E|_]; [contradiction|].
  destruct s; [contradiction|reflexivity].
Qed.

Lemma safe_segment_clean (value field : string) :
  clean_segment value -> storage._safe_segment value field = Ok value.
Proof.
  intros [Hne [Hn [Hs [Hb [Hd Hdd]]]]]. unfold storage._safe_segment.
  destruct value as [|c r]; [contradiction|]. cbn [pystr.is_empty].
  rewrite Hn, Hs, Hb. cbn [orb]. unfold pystr.mem. cbn [existsb].
  destruct (String.eqb_spec (String c r) pystr.dot); [contradiction|].
  destruct (String.eqb_spec (String c r) pystr.dotdot); [contradiction|].
  reflexivity.
Qed.

Lemma safe_segment_unclean (value field : string) :
  ~ clean_segment value ->
  exists msg, storage._safe_segment value field = Raise (ValueError msg).
Proof.
  intros H. unfold storage._safe_segment.
  destruct (pystr.is_empty value) eqn:E; [eauto|].
  destruct (pystr.contains pystr.nul value) eqn:N; [eauto|].
  destruct (pystr.contains pystr.slash value) eqn:S; [cbn; eauto|].
  destruct (pystr.contains pystr.backslash value) eqn:B; [cbn; eauto|].
  cbn [orb].
  destruct (pystr.mem value [pystr.dot; pystr.dotdot]) eqn:M; [eauto|].
  exfalso. apply H. unfold clean_segment. splits; auto.
  - intros ->. discriminate.
  - intros ->. discriminate.
  - intros ->. discriminate.
Qed.

Lemma root_of_clean (partner_id dataset_name : string) :
  clean_segment partner_id -> clean_segment dataset_name ->
  store.root_of partner_id dataset_name
  = mkPath EmptyString ["data"; "raw"; partner_id; dataset_name].
Proof.
  intros [P1 [_ [P3 [_ [P5 _]]]]] [D1 [_ [D3 [_ [D5 _]]]]].
  unfold store.root_of.
  rewrite (of_str_single _ P1 P5 P3), (of_str_single _ D1 D5 D3).
  reflexivity.
Qed.

(** X1. [_safe_segment] returns its argument unchanged exactly when the
    argument is not empty, has no NUL, slash or backslash, and is neither
    [.] nor [..]; otherwise it raises [ValueError]. An accepted value
    parses as one path segment, so the storage root of two accepted values
    is [data/raw/<partner_id>/<dataset_name>], four segments deep. *)
Theorem safe_segment_is_one_segment (value field : string) :
  (clean_segment value ->
   storage._safe_segment value field = Ok value
   /\ pathlib.of_str value = mkPath EmptyString [value])
  /\ (~ clean_segment value ->
      exists msg, storage._safe_segment value field = Raise (ValueError msg))
  /\ (forall other,
         clean_segment value -> clean_segment other ->
         store.root_of value other = mkPath EmptyString ["data"; "raw"; value; other]).
Proof.
  splits.
  - intros H. split; [now apply safe_segment_clean|].
    destruct H as [H1 [_ [H3 [_ [H5 _]]]]]. now apply of_str_single.
  - apply safe_segment_unclean.
  - intros other. apply root_of_clean.
Qed.

Lemma acme_is_clean : clean_segment "acme".
Proof. unfold clean_segment. splits; try reflexivity; discriminate. Qed.

Lemma cats_is_clean : clean_segment "cats".
Proof. unfold clean_segment. splits; try reflexivity; discriminate. Qed.

Lemma safe_segment_is_one_segment_witness :
  storage._safe_segment "acme" "partner_id" = Ok "acme"
  /\ pathlib.of_str "acme" = mkPath EmptyString ["acme"].
Proof.
  destruct (safe_segment_is_one_segment "acme" "partner_id") as [H _].
  apply H. unfold clean_segment. splits; try reflexivity; discriminate.
Defined.

Lemma existsb_filter_nonempty (f : string -> bool) (l : list string) :
  f EmptyString = false ->
  existsb f (filter (fun p => negb (pystr.is_empty p)) l) = existsb f l.
Proof.
  intros Hf. induction l as [|x r IH]; [reflexivity|].
  cbn. destruct x as [|c s]; cbn; [now rewrite Hf|now rewrite IH].
Qed.

Lemma name_in_parts (p : Path) :
  pathlib.name p <> EmptyString -> In (pathlib.name p) (pathlib.parts p).
Proof.
  unfold pathlib.name, pathlib.parts. intros H.
  assert (X : In (last (segs p) EmptyString) (segs p)).
  { induction (segs p) as [|x r IH]; [now cbn in H|].
    destruct r as [|y r']; [now left|]. right. apply IH. exact H. }
  destruct (pystr.is_empty (root p)); [exact X|now right].
Qed.

Lemma dot_underscore_starts_with_dot (s : string) :
  pystr.startswith "._" s = true -> pystr.startswith "." s = true.
Proof.
  unfold pystr.startswith. destruct s as [|c r]; [discriminate|].
  change (String.prefix "._" (String c r))
    with (if Ascii.ascii_dec "."%char c then String.prefix "_" r else false).
  change (String.prefix "." (String c r))
    with (if Ascii.ascii_dec "."%char c then String.prefix EmptyString r else false).
  destruct (Ascii.ascii_dec "."%char c); [|auto].
  intros _. destruct r; reflexivity.
Qed.

(** X2. A path is hidden exactly when one of its parts starts with a dot
    or its last segment is [Thumbs.db]: the tests for [.DS_Store] and for
    the [._] prefix never add a path that the dot test has not caught. *)
Theorem hidden_iff_dot_part_or_thumbs (p : Path) :
  storage.is_hidden_or_metadata_path p = true
  <-> (exists s, In s (pathlib.parts p) /\ pystr.startswith "." s = true)
      \/ pathlib.name p = "Thumbs.db".
Proof.
  unfold storage.is_hidden_or_metadata_path.
  rewrite existsb_filter_nonempty by reflexivity.
  destruct (existsb (pystr.startswith ".") (pathlib.parts p)) eqn:E.
  - split; [|reflexivity]. intros _. left. now apply existsb_exists.
  - assert (N : forall s, In s (pathlib.parts p) -> pystr.startswith "." s = false).
    { intros s Hs. destruct (pystr.startswith "." s) eqn:F; [|reflexivity].
      assert (X : existsb (pystr.startswith ".") (pathlib.parts p) = true)
        by (apply existsb_exists; eauto).
      congruence. }
    split.
    + intros H.
      destruct (pystr.mem (pathlib.name p) [".DS_Store"; "Thumbs.db"]) eqn:M.
      * apply mem_In in M. destruct M as [M|[M|[]]]; [|now right].
        exfalso. assert (Hn : pathlib.name p <> EmptyString) by (rewrite <- M; discriminate).
        apply name_in_parts, N in Hn. rewrite <- M in Hn. discriminate.
      * destruct (pystr.startswith "._" (pathlib.name p)) eqn:U; [|discriminate].
        exfalso. assert (Hn : pathlib.name p <> EmptyString).
        { intros Z. rewrite Z in U. discriminate. }
        apply name_in_parts, N in Hn.
        apply dot_underscore_starts_with_dot in U. congruence.
    + intros [[s [Hs F]]|T].
      * rewrite (N s Hs) in F. discriminate.
      * rewrite T. reflexivity.
Qed.

(* ================================================================= *)
(** ** More on ingestion *)

Lemma safe_segment_raises_value_error (value field : string) (e : exn) :
  storage._safe_segment value field = Raise e -> exists msg, e = ValueError msg.
Proof.
  unfold storage._safe_segment.
  repeat match goal with |- context [if ?b then _ else _] => destruct b end;
    intros [= <-]; eauto.
Qed.

Lemma safe_relpath_raises_value_error (filename : string) (e : exn) :
  storage._safe_relpath filename = Raise e -> exists msg, e = ValueError msg.
Proof.
  unfold storage._safe_relpath.
  repeat match goal with |- context [if ?b then _ else _] => destruct b end;
    intros [= <-]; eauto.
Qed.

(** X3. When the partner id or the dataset name is not a clean segment,
    [upload] answers 400 and neither the disk nor the table has changed:
    the ids are checked before the storage root is created. *)
Theorem invalid_ids_change_nothing (dataset_id : string) (now : Z)
        (partner_id dataset_name : string) (files : list UploadFile) (w : world) :
  ~ clean_segment partner_id \/ ~ clean_segment dataset_name ->
  exists msg,
    upload.upload dataset_id now partner_id dataset_name files w
    = (w, Raise (HTTPException 400 msg)).
Proof.
  intros H. unfold upload.upload, store.save_files. destruct w as [d t]. cbn [disk datasets].
  destruct (storage._safe_segment partner_id "partner_id") as [p|e] eqn:Sp.
  - destruct H as [H|H].
    + destruct (safe_segment_unclean partner_id "partner_id" H) as [msg E]. congruence.
    + destruct (safe_segment_unclean dataset_name "dataset_name" H) as [msg ->]. eauto.
  - destruct (safe_segment_raises_value_error _ _ _ Sp) as [msg ->]. eauto.
Qed.

Lemma invalid_ids_change_nothing_witness :
  exists msg,
    upload.upload "id1" 1 "a/b" "cats" [mkUpload "a.txt" "aa"] sample.empty_world
    = (sample.empty_world, Raise (HTTPException 400 msg)).
Proof.
  apply invalid_ids_change_nothing. left.
  intros [_ [_ [H _]]]. discriminate H.
Defined.

(** X4. Whatever [upload] answers, every path that named a file or a
    directory on the disk before still names one of the same kind after,
    and every regular file below it is still there: the request never
    deletes. The table gains exactly one row when the answer is the
    dataset id, a row with a positive file count that carries the request's
    ids and the storage root as its path, and is unchanged on every
    failure. *)
Theorem upload_never_deletes (dataset_id : string) (now : Z)
        (partner_id dataset_name : string) (files : list UploadFile) (w : world) :
  diskview.disk_kept
    (disk w)
    (disk (fst (upload.upload dataset_id now partner_id dataset_name files w)))
  /\ match snd (upload.upload dataset_id now partner_id dataset_name files w) with
     | Ok answer =>
         answer = dataset_id
         /\ exists count size,
             0 < count
             /\ datasets (fst (upload.upload dataset_id now partner_id dataset_name files w))
                = (datasets w
                     ++ [models.mkDataset dataset_id partner_id dataset_name "mixed"
                           (pathlib.to_str (store.root_of partner_id dataset_name))
                           count size now])%list
     | Raise _ =>
         datasets (fst (upload.upload dataset_id now partner_id dataset_name files w))
         = datasets w
     end.
Proof.
  unfold upload.upload.
  destruct (store.save_files partner_id dataset_name files (disk w))
    as [d [root|e]] eqn:Sv.
  - pose proof (save_files_kept _ _ _ _ _ _ Sv) as K.
    destruct (save_files_ok _ _ _ _ _ _ Sv) as [-> _].
    destruct (List.length (upload.all_files _ d)) as [|k] eqn:L; cbn [Nat.eqb fst snd disk datasets].
    + auto.
    + split; [exact K|]. split; [reflexivity|].
      exists (Datatypes.S k),
        (upload.total_size (upload.all_files (store.root_of partner_id dataset_name) d)).
      split; [lia|reflexivity].
  - pose proof (save_files_kept _ _ _ _ _ _ Sv) as K.
    destruct e; cbn [fst snd disk datasets]; auto.
Qed.

Lemma save_loop_app (root : Path) (a b : list UploadFile) :
  forall d,
    store.save_loop root (a ++ b) d
    = match store.save_loop root a d with
      | (d1, Ok _) => store.save_loop root b d1
      | (d1, Raise e) => (d1, Raise e)
      end.
Proof.
  induction a as [|f rest IH]; intros d; cbn [app store.save_loop].
  - reflexivity.
  - destruct (storage._safe_relpath (filename f)) as [rel|e]; [|reflexivity].
    destruct (storage.is_hidden_or_metadata_path rel); [apply IH|].
    destruct (existsb _ _); [reflexivity|].
    destruct (fs.mkdir_p _ d) as [d1|]; [|reflexivity].
    destruct (pystr.contains _ _); [reflexivity|].
    destruct (fs.write_at _ _ d1) as [d2|]; [apply IH|reflexivity].
Qed.

Lemma save_loop_all_skipped (root : Path) (files : list UploadFile) (d : fs.node) :
  forallb skipped files = true -> store.save_loop root files d = (d, Ok tt).
Proof.
  induction files as [|f rest IH]; intros H; [reflexivity|].
  cbn [forallb] in H. apply andb_true_iff in H. destruct H as [Hf Hr].
  cbn [store.save_loop]. unfold skipped in Hf.
  destruct (storage._safe_relpath (filename f)) as [rel|e]; [|discriminate].
  rewrite Hf. now apply IH.
Qed.

Lemma lookup_nil_dir (p : list string) :
  match fs.lookup p (fs.Dir []) with Some r => r | None => fs.Dir [] end = fs.Dir [].
Proof. destruct p; reflexivity. Qed.

(** After [mkdir -p] the path names what it named before, or a new empty
    directory. *)
Lemma lookup_mkdir_p (p : list string) :
  forall d d',
    fs.mkdir_p p d = Some d' ->
    fs.lookup p d'
    = Some (match fs.lookup p d with Some r => r | None => fs.Dir [] end).
Proof.
  induction p as [|s rest IH]; intros [c|es] d' H; try discriminate.
  - injection H as <-. reflexivity.
  - cbn [fs.mkdir_p] in H.
    destruct (fs.mkdir_p rest _) as [sub'|] eqn:M; [|discriminate].
    injection H as <-. cbn [fs.lookup]. rewrite get_set_entry, String.eqb_refl.
    rewrite (IH _ _ M).
    destruct (fs.get_entry s es) as [x|]; [reflexivity|].
    now rewrite lookup_nil_dir.
Qed.

Lemma lookup_cons (s : string) (rest : list string) (es : list (string * fs.node)) :
  fs.lookup (s :: rest) (fs.Dir es)
  = match fs.get_entry s es with
    | Some x => fs.lookup rest x
    | None => None
    end.
Proof. reflexivity. Qed.

Lemma write_at_lookup (p : list string) (content : string) :
  forall d d',
    fs.write_at p content d = Some d' -> fs.lookup p d' = Some (fs.File content).
Proof.
  induction p as [|s rest IH]; intros [c|es] d' H; try discriminate.
  cbn [fs.write_at] in H. destruct rest as [|s2 rest].
  - assert (E : d' = fs.Dir (fs.set_entry s (fs.File content) es)).
    { destruct (fs.get_entry s es) as [[c|es']|]; try discriminate;
        now injection H as <-. }
    subst d'. cbn [fs.lookup]. now rewrite get_set_entry, String.eqb_refl.
  - destruct (fs.get_entry s es) as [sub|] eqn:G; [|discriminate].
    destruct (fs.write_at (s2 :: rest) content sub) as [sub'|] eqn:W;
      [|discriminate].
    injection H as <-.
    rewrite lookup_cons, get_set_entry, String.eqb_refl. exact (IH _ _ W).
Qed.

(** X5. With clean ids, a storage root that can be created and holds no
    visible regular file, an upload whose files are all skipped is refused
    with the empty-manifest error; the disk is left with the root created
    and nothing else changed, and no row is inserted. *)
Theorem skipped_only_upload_is_refused (dataset_id : string) (now : Z)
        (partner_id dataset_name : string) (files : list UploadFile) (w : world)
        (d1 : fs.node) :
  clean_segment partner_id -> clean_segment dataset_name ->
  forallb skipped files = true ->
  fs.mkdir_p (segs (store.root_of partner_id dataset_name)) (disk w) = Some d1 ->
  upload.all_files (store.root_of partner_id dataset_name) (disk w) = [] ->
  upload.upload dataset_id now partner_id dataset_name files w
  = (mkWorld d1 (datasets w), Raise (HTTPException 400 upload.no_uploadable)).
Proof.
  intros Hp Hd Hs Hm Ha. unfold upload.upload, store.save_files.
  rewrite (safe_segment_clean _ _ Hp), (safe_segment_clean _ _ Hd), Hm.
  rewrite (save_loop_all_skipped _ _ _ Hs).
  assert (E : upload.all_files (store.root_of partner_id dataset_name) d1 = []).
  { unfold upload.all_files in *. rewrite (lookup_mkdir_p _ _ _ Hm).
    destruct (fs.lookup _ (disk w)); [exact Ha|reflexivity]. }
  rewrite E. reflexivity.
Qed.

Lemma skipped_only_upload_is_refused_witness :
  upload.upload "id1" 1 "acme" "cats"
                [mkUpload ".DS_Store" "junk"; mkUpload "x/.git/config" "c"]
                sample.empty_world
  = (mkWorld (sample.disk_with "cats" []) [],
     Raise (HTTPException 400 upload.no_uploadable)).
Proof.
  apply (skipped_only_upload_is_refused "id1" 1 "acme" "cats" _ sample.empty_world).
  - exact acme_is_clean.
  - exact cats_is_clean.
  - reflexivity.
  - reflexivity.
  - reflexivity.
Defined.

Lemma save_files_app_ok (partner_id dataset_name : string)
      (pre post : list UploadFile) (d d1 : fs.node) (root : Path) :
  store.save_files partner_id dataset_name pre d = (d1, Ok root) ->
  store.save_files partner_id dataset_name (pre ++ post) d
  = match store.save_loop root post d1 with
    | (d2, Ok _) => (d2, Ok root)
    | (d2, Raise e) => (d2, Raise e)
    end.
Proof.
  unfold store.save_files.
  destruct (storage._safe_segment partner_id _) as [p|e]; [|discriminate].
  destruct (storage._safe_segment dataset_name _) as [n|e]; [|discriminate].
  destruct (fs.mkdir_p _ d) as [d0|]; [|discriminate].
  rewrite save_loop_app.
  destruct (store.save_loop _ pre d0) as [dx [u|e]]; [|discriminate].
  intros [= <- <-]. reflexivity.
Qed.

Lemma upload_ok_saved (dataset_id : string) (now : Z)
      (partner_id dataset_name : string) (files : list UploadFile)
      (w w' : world) (answer : string) :
  upload.upload dataset_id now partner_id dataset_name files w = (w', Ok answer) ->
  store.save_files partner_id dataset_name files (disk w)
  = (disk w', Ok (store.root_of partner_id dataset_name)).
Proof.
  unfold upload.upload.
  destruct (store.save_files partner_id dataset_name files (disk w))
    as [d [rt|e]] eqn:Sv.
  - destruct (save_files_ok _ _ _ _ _ _ Sv) as [-> _].
    destruct (Nat.eqb _ 0); [discriminate|]. now intros [= <- _].
  - destruct e; discriminate.
Qed.

(** X6. When an upload succeeds, its last file, if it is not skipped, is
    on disk below the storage root at its relative path with exactly the
    uploaded bytes, whatever was at that path before. *)
Theorem last_file_is_read_back (dataset_id : string) (now : Z)
        (partner_id dataset_name : string) (files : list UploadFile)
        (f : UploadFile) (rel : Path) (w w' : world) (answer : string) :
  upload.upload dataset_id now partner_id dataset_name (files ++ [f]) w
  = (w', Ok answer) ->
  storage._safe_relpath (filename f) = Ok rel ->
  storage.is_hidden_or_metadata_path rel = false ->
  fs.lookup (segs (pathlib.truediv (store.root_of partner_id dataset_name) rel))
            (disk w')
  = Some (fs.File (body f)).
Proof.
  intros H Hrel Hvis.
  pose proof (upload_ok_saved _ _ _ _ _ _ _ _ H) as Sv. clear H.
  unfold store.save_files in Sv.
  destruct (storage._safe_segment partner_id _) as [p|e] eqn:Sp; [|discriminate].
  destruct (storage._safe_segment dataset_name _) as [n|e] eqn:Sn; [|discriminate].
  apply safe_segment_ok in Sp, Sn. subst p n.
  destruct (fs.mkdir_p _ (disk w)) as [d0|]; [|discriminate].
  rewrite save_loop_app in Sv.
  destruct (store.save_loop _ files d0) as [d1 [u|e]]; [|discriminate].
  cbn [store.save_loop] in Sv. rewrite Hrel, Hvis in Sv.
  destruct (existsb _ _); [discriminate|].
  destruct (fs.mkdir_p _ d1) as [d2|]; [|discriminate].
  destruct (pystr.contains _ _); [discriminate|].
  destruct (fs.write_at _ _ d2) as [d3|] eqn:W; [|discriminate].
  injection Sv as <-. now apply write_at_lookup in W.
Qed.

Lemma last_file_is_read_back_witness :
  fs.lookup ["data"; "raw"; "acme"; "cats"; "a.txt"]
            (disk (fst (upload.upload "id2" 2 "acme" "cats"
                          ([mkUpload "b.txt" "b"] ++ [mkUpload "a.txt" "HELLO"])
                          sample.cats_world)))
  = Some (fs.File "HELLO").
Proof.
  apply (last_file_is_read_back "id2" 2 "acme" "cats" [mkUpload "b.txt" "b"]
           (mkUpload "a.txt" "HELLO") (mkPath EmptyString ["a.txt"])
           sample.cats_world _ "id2").
  - vm_compute. reflexivity.
  - reflexivity.
  - reflexivity.
Defined.

(** X7. An upload is not atomic across its files: when a file name fails
    the path check, the answer is 400 with that check's message, the files
    before it stay written as [save_files] left them, the files after it
    are not looked at, and no row is inserted. *)
Theorem bad_name_stops_the_upload (dataset_id : string) (now : Z)
        (partner_id dataset_name : string) (pre post : list UploadFile)
        (bad : UploadFile) (w : world) (d1 : fs.node) (root : Path) (msg : string) :
  store.save_files partner_id dataset_name pre (disk w) = (d1, Ok root) ->
  storage._safe_relpath (filename bad) = Raise (ValueError msg) ->
  upload.upload dataset_id now partner_id dataset_name (pre ++ bad :: post) w
  = (mkWorld d1 (datasets w), Raise (HTTPException 400 msg)).
Proof.
  intros Hpre Hbad. unfold upload.upload.
  rewrite (save_files_app_ok _ _ _ _ _ _ _ Hpre).
  cbn [store.save_loop]. rewrite Hbad. reflexivity.
Qed.

Lemma bad_name_stops_the_upload_witness :
  exists msg,
    upload.upload "id1" 1 "acme" "cats"
                  ([mkUpload "a.txt" "aa"] ++ mkUpload "../x" "x" :: [mkUpload "b.txt" "b"])
                  sample.empty_world
    = (mkWorld (sample.disk_with "cats" [("a.txt", fs.File "aa")]) [],
       Raise (HTTPException 400 msg)).
Proof.
  eexists.
  apply (bad_name_stops_the_upload "id1" 1 "acme" "cats" [mkUpload "a.txt" "aa"]
           [mkUpload "b.txt" "b"] (mkUpload "../x" "x") sample.empty_world
           _ (store.root_of "acme" "cats")).
  - vm_compute. reflexivity.
  - vm_compute. reflexivity.
Defined.

(* ================================================================= *)
(** ** More on the tree walker *)

Lemma height_le (nm p : string) (ch : list browse.TreeNode) (m : nat) :
  height (browse.Directory nm p ch) <= m
  <-> Forall (fun c => S (height c) <= m) ch.
Proof.
  cbn [height]. induction ch as [|c r IH]; cbn [fold_right].
  - split; [constructor|lia].
  - split.
    + intros H. constructor; [lia|]. apply IH. lia.
    + intros H. inversion H; subst. apply IH in H3. lia.
Qed.

Lemma children_loop_forall (P : browse.TreeNode -> Prop) (max_entries : nat)
      (build : list string -> list (string * fs.node) -> browse.walk_state
               -> option (browse.TreeNode * browse.walk_state))
      (dir_rel : list string) :
  (forall r es s n s', build r es s = Some (n, s') -> P n) ->
  (forall nm p sz, P (browse.FileEntry nm p sz)) ->
  forall children acc st out st',
    browse.children_loop max_entries build dir_rel children acc st = Some (out, st') ->
    Forall P acc -> Forall P out.
Proof.
  intros Hb Hf. induction children as [|[nm child] rest IH];
    intros acc st out st' H Hacc; cbn [browse.children_loop] in H.
  - now injection H as <- _.
  - destruct (storage.is_hidden_or_metadata_path _); [eauto|].
    destruct (Nat.leb _ _); [now injection H as <- _|].
    destruct child as [c|es].
    + eapply IH; [exact H|]. apply Forall_app. split; [exact Hacc|].
      constructor; [apply Hf|constructor].
    + destruct (build _ es _) as [[n st2]|] eqn:B; [|discriminate].
      eapply IH; [exact H|]. apply Forall_app. split; [exact Hacc|].
      constructor; [eapply Hb; exact B|constructor].
Qed.

Lemma build_dir_node_height (max_depth max_entries fuel : nat) :
  forall r es depth s n s',
    browse._build_dir_node max_depth max_entries fuel r es depth s = Some (n, s') ->
    height n <= max_depth - depth.
Proof.
  induction fuel as [|fuel IH]; intros r es depth s n s' H; [discriminate|].
  cbn [browse._build_dir_node] in H.
  destruct (Nat.leb max_depth depth) eqn:D; cbn [orb] in H.
  { injection H as <- _. cbn. lia. }
  destruct (browse.truncated s).
  { injection H as <- _. cbn. lia. }
  apply Nat.leb_gt in D.
  destruct (browse.children_loop _ _ _ _ _ _) as [[ch st']|] eqn:L; [|discriminate].
  injection H as <- _. apply height_le.
  eapply (children_loop_forall (fun c => S (height c) <= max_depth - depth));
    [| |exact L|constructor].
  - intros r' es' s0 n0 s0' B. apply IH in B. lia.
  - intros nm p sz. cbn. lia.
Qed.

(** X8. Every tree [dataset_tree] answers with is at most five levels
    deep and has at most 2000 nodes below its root, which is the number
    it reports; the flag is only raised when that number is 2000, and the
    answer repeats the two bounds and an empty root path. A missing row
    is answered as the row lookup answers it, a path that is not on disk
    with 404 and a path that names a regular file with 400. *)
Theorem tree_answer_is_bounded :
  (forall partner_id dataset_name w resp,
      browse.dataset_tree partner_id dataset_name w = Ok resp ->
      browse.entries_returned resp = List.length (treeview.below (browse.tree resp))
      /\ browse.entries_returned resp <= 2000
      /\ height (browse.tree resp) <= 5
      /\ (browse.tr_truncated resp = true -> browse.entries_returned resp = 2000)
      /\ browse.root_path resp = EmptyString
      /\ browse.tr_max_depth resp = 5
      /\ browse.tr_max_entries resp = 2000)
  /\ (forall partner_id dataset_name w x,
         browse._get_dataset_by_partner_and_name_or_404 partner_id dataset_name w
         = Raise x ->
         browse.dataset_tree partner_id dataset_name w = Raise x)
  /\ (forall partner_id dataset_name w d,
         browse._get_dataset_by_partner_and_name_or_404 partner_id dataset_name w
         = Ok d ->
         (fs.lookup (segs (pathlib.of_str (models.path d))) (disk w) = None ->
          browse.dataset_tree partner_id dataset_name w
          = Raise (HTTPException 404 "Dataset path missing on disk"))
         /\ (forall content,
                fs.lookup (segs (pathlib.of_str (models.path d))) (disk w)
                = Some (fs.File content) ->
                browse.dataset_tree partner_id dataset_name w
                = Raise (HTTPException 400 "Path must be a directory"))).
Proof.
  splits.
  - intros partner_id dataset_name w resp.
    unfold browse.dataset_tree.
    destruct (browse._get_dataset_by_partner_and_name_or_404 _ _ _) as [d|x];
      cbn [bind]; [|discriminate].
    destruct (fs.lookup _ (disk w)) as [[c|entries]|]; try discriminate.
    unfold browse.build_tree.
    destruct (browse._build_dir_node 5 2000 6 [] entries 0 (browse.mkWalk false 0))
      as [[t st]|] eqn:B; [|discriminate].
    intros E. injection E as <-.
    cbn [browse.entries_returned browse.tree browse.tr_truncated browse.root_path
         browse.tr_max_depth browse.tr_max_entries].
    pose proof (build_dir_node_height _ _ _ _ _ _ _ _ _ B) as Hh.
    destruct (build_dir_node_facts _ _ _ _ _ _ _ _ _ B)
      as [_ [_ [_ [Be [Bc _]]]]].
    destruct Bc as [C1 C2]; [split; cbn; [lia|discriminate]|].
    cbn in Be. splits; auto; lia.
  - intros partner_id dataset_name w x E. unfold browse.dataset_tree.
    now rewrite E.
  - intros partner_id dataset_name w d E. unfold browse.dataset_tree.
    rewrite E. cbn [bind]. split.
    + intros L. now rewrite L.
    + intros content L. now rewrite L.
Qed.

Lemma tree_answer_is_bounded_witness :
  browse.entries_returned
    (browse.mkTreeResponse "acme" "cats" "id-cats" EmptyString 5 2000 1 false
       (browse.Directory EmptyString EmptyString
          [browse.FileEntry "a.txt" "a.txt" 5])) <= 2000.
Proof.
  destruct tree_answer_is_bounded as [H _].
  destruct (H "acme" "cats" sample.cats_world
              (browse.mkTreeResponse "acme" "cats" "id-cats" EmptyString 5 2000 1
                 false
                 (browse.Directory EmptyString EmptyString
                    [browse.FileEntry "a.txt" "a.txt" 5])))
    as [_ [B _]].
  - vm_compute. reflexivity.
  - exact B.
Defined.

Lemma children_loop_complete (max_entries : nat)
      (build : list string -> list (string * fs.node) -> browse.walk_state
               -> option (browse.TreeNode * browse.walk_state))
      (dir_rel : list string) :
  (forall r es s n s',
      build r es s = Some (n, s') ->
      treeview.node_name n = last r EmptyString /\ treeview.node_is_dir n = true) ->
  forall children acc st out st',
    browse.children_loop max_entries build dir_rel children acc st = Some (out, st') ->
    browse.truncated st' = false ->
    exists new,
      out = (acc ++ new)%list
      /\ map shape new = map entry_shape (filter (visible_entry dir_rel) children).
Proof.
  intros Hb. induction children as [|[nm child] rest IH];
    intros acc st out st' H T; cbn [browse.children_loop] in H.
  - injection H as <- _. exists []. now rewrite app_nil_r.
  - cbn [filter]. unfold visible_entry at 1. cbn [fst].
    destruct (storage.is_hidden_or_metadata_path _); cbn [negb]; [eauto|].
    destruct (Nat.leb _ _).
    { injection H as _ <-. discriminate T. }
    destruct child as [c|es].
    + destruct (IH _ _ _ _ H T) as [new [E M]].
      eexists (_ :: new). rewrite <- app_assoc in E. split; [exact E|].
      cbn [map]. now rewrite M.
    + destruct (build _ es _) as [[n st2]|] eqn:B; [|discriminate].
      destruct (Hb _ _ _ _ _ B) as [Bn Bd].
      destruct (IH _ _ _ _ H T) as [new [E M]].
      exists (n :: new). rewrite <- app_assoc in E. split; [exact E|].
      cbn [map]. rewrite M. unfold shape at 1, entry_shape at 2. cbn [fst snd fs.is_dir].
      now rewrite Bn, Bd, last_snoc.
Qed.

(** X9. With a positive depth limit, a walk that ends with the flag down
    lists the whole root directory: the children of the root node are, by
    name and kind, exactly the entries that are not hidden, in sorted
    order. *)
Theorem untruncated_root_is_complete (max_depth max_entries : nat)
        (entries : list (string * fs.node)) (t : browse.TreeNode)
        (st : browse.walk_state) :
  0 < max_depth ->
  browse.build_tree max_depth max_entries entries = Some (t, st) ->
  browse.truncated st = false ->
  map shape (treeview.node_children t)
  = map entry_shape
        (filter (visible_entry []) (pysort.sorted browse.child_ltb entries)).
Proof.
  intros Hd B T. unfold browse.build_tree in B. cbn [browse._build_dir_node] in B.
  destruct (Nat.leb_spec max_depth 0) as [?|_]; [lia|]. cbn [orb browse.truncated] in B.
  destruct (browse.children_loop _ _ _ _ _ _) as [[ch st']|] eqn:L; [|discriminate].
  injection B as <- <-.
  assert (Hb : forall r es s n s',
             browse._build_dir_node max_depth max_entries max_depth r es 1 s
             = Some (n, s') ->
             treeview.node_name n = last r EmptyString
             /\ treeview.node_is_dir n = true).
  { intros r es s n s' H. apply build_dir_node_facts in H.
    destruct H as [Hd' [Hn _]]. auto. }
  destruct (children_loop_complete _ _ _ Hb _ _ _ _ _ L T) as [new [-> M]].
  exact M.
Qed.

Lemma untruncated_root_is_complete_witness :
  map shape [browse.Directory "A_dir" "A_dir" [];
             browse.FileEntry "a.txt" "a.txt" 1;
             browse.FileEntry "b.txt" "b.txt" 2]
  = map entry_shape
        (filter (visible_entry [])
                (pysort.sorted browse.child_ltb
                   (sample.mixed ++ [(".DS_Store", fs.File "junk")]))).
Proof.
  apply (untruncated_root_is_complete 5 2000
           (sample.mixed ++ [(".DS_Store", fs.File "junk")])
           (browse.Directory EmptyString EmptyString
              [browse.Directory "A_dir" "A_dir" [];
               browse.FileEntry "a.txt" "a.txt" 1;
               browse.FileEntry "b.txt" "b.txt" 2])
           (browse.mkWalk false 3)).
  - lia.
  - vm_compute. reflexivity.
  - reflexivity.
Defined.

(* ================================================================= *)
(** ** Lookup, listing, and browsing what was uploaded *)

Lemma newest_bounds (l : list models.Dataset) :
  forall best,
    match browse.newest best l with
    | Some d =>
        (best = Some d \/ In d l)
        /\ (forall b, best = Some b -> (models.uploaded_at b <= models.uploaded_at d)%Z)
        /\ (forall x, In x l -> (models.uploaded_at x <= models.uploaded_at d)%Z)
    | None => best = None /\ l = []
    end.
Proof.
  induction l as [|x r IH]; intros best; cbn [browse.newest].
  - destruct best as [b|]; [|auto].
    splits; auto. + intros b' [= <-]. lia. + intros x [].
  - destruct best as [b|].
    + destruct (Z.ltb_spec (models.uploaded_at b) (models.uploaded_at x)).
      * specialize (IH (Some x)). destruct (browse.newest (Some x) r) as [d|].
        -- destruct IH as [Hin [Hb Hr]]. specialize (Hb x eq_refl). splits.
           ++ right. destruct Hin as [[= <-]|Hin]; [now left|now right].
           ++ intros b' [= <-]. lia.
           ++ intros y [<-|Hy]; auto.
        -- destruct IH as [IH _]. discriminate.
      * specialize (IH (Some b)). destruct (browse.newest (Some b) r) as [d|].
        -- destruct IH as [Hin [Hb Hr]]. specialize (Hb b eq_refl). splits.
           ++ destruct Hin as [Hin|Hin]; [now left|right; now right].
           ++ intros b' [= <-]. exact Hb.
           ++ intros y [<-|Hy]; auto. lia.
        -- destruct IH as [IH _]. discriminate.
    + specialize (IH (Some x)). destruct (browse.newest (Some x) r) as [d|].
      * destruct IH as [Hin [Hb Hr]]. specialize (Hb x eq_refl). splits.
        -- right. destruct Hin as [[= <-]|Hin]; [now left|now right].
        -- discriminate.
        -- intros y [<-|Hy]; auto.
      * destruct IH as [IH _]. discriminate.
Qed.

Lemma matching_filter (partner_id dataset_name : string) (l : list models.Dataset)
      (x : models.Dataset) :
  In x (filter (fun d => String.eqb (models.partner_id d) partner_id
                         && String.eqb (models.name d) dataset_name) l)
  <-> In x l /\ row_matches partner_id dataset_name x.
Proof.
  rewrite filter_In, andb_true_iff, !String.eqb_eq. reflexivity.
Qed.

(** X10. The lookup by partner and name returns a row of the table that
    matches both and whose upload time no matching row exceeds; it answers
    404 exactly when no row matches. *)
Theorem lookup_returns_newest (partner_id dataset_name : string) (w : world) :
  match browse._get_dataset_by_partner_and_name_or_404 partner_id dataset_name w with
  | Ok d =>
      In d (datasets w) /\ row_matches partner_id dataset_name d
      /\ forall x, In x (datasets w) -> row_matches partner_id dataset_name x ->
                   (models.uploaded_at x <= models.uploaded_at d)%Z
  | Raise e =>
      (exists detail, e = HTTPException 404 detail)
      /\ forall x, In x (datasets w) -> ~ row_matches partner_id dataset_name x
  end.
Proof.
  unfold browse._get_dataset_by_partner_and_name_or_404.
  pose proof (newest_bounds
                (filter (fun d => String.eqb (models.partner_id d) partner_id
                                  && String.eqb (models.name d) dataset_name)
                        (datasets w)) None) as H.
  destruct (browse.newest None _) as [d|].
  - destruct H as [[H|H] [_ Hr]]; [discriminate|].
    apply matching_filter in H. destruct H as [Hin Hm]. splits; auto.
    intros x Hx Hmx. apply Hr. apply matching_filter. auto.
  - destruct H as [_ H]. split; [eauto|].
    intros x Hx Hm.
    assert (X : In x (filter (fun d => String.eqb (models.partner_id d) partner_id
                                       && String.eqb (models.name d) dataset_name)
                             (datasets w))) by (apply matching_filter; auto).
    rewrite H in X. contradiction.
Qed.

Lemma split_app_sep (sep : ascii) (a b : string) :
  pystr.contains sep a = false ->
  pystr.split sep (a ++ String sep b) = a :: pystr.split sep b.
Proof.
  induction a as [|c a IH]; cbn; intros H.
  - now rewrite Ascii.eqb_refl.
  - apply orb_false_iff in H. destruct H as [Hc Ha].
    rewrite Hc, (IH Ha). reflexivity.
Qed.

Lemma split_concat (l : list string) :
  l <> [] -> Forall plain_segment l ->
  pystr.split pystr.slash (String.concat "/" l) = l.
Proof.
  induction l as [|x r IH]; intros Hne Hall; [contradiction|].
  inversion Hall as [|? ? [Hx _] Hr]; subst.
  destruct r as [|y r'].
  - cbn. now apply split_no_sep.
  - change (String.concat "/" (x :: y :: r'))
      with (x ++ String pystr.slash (String.concat "/" (y :: r'))).
    rewrite (split_app_sep _ _ _ Hx). f_equal. apply IH; [discriminate|exact Hr].
Qed.

Lemma concat_not_rooted (l : list string) :
  Forall plain_segment l -> starts_with_slash (String.concat "/" l) = false.
Proof.
  intros H. destruct l as [|x r]; [reflexivity|].
  inversion H as [|? ? [Hx Hk] Hr]; subst.
  assert (X : starts_with_slash x = false) by now apply no_slash_not_rooted.
  destruct x as [|c s]; [discriminate Hk|].
  destruct r; exact X.
Qed.

(** [Path(str(p))] is [p] again for a relative path of plain segments. *)
Lemma path_str_round_trip (l : list string) :
  Forall plain_segment l ->
  pathlib.of_str (pathlib.to_str (mkPath EmptyString l)) = mkPath EmptyString l.
Proof.
  intros H. destruct l as [|x r] eqn:E; [reflexivity|]. rewrite <- E in *.
  assert (Hne : l <> []) by (rewrite E; discriminate).
  replace (pathlib.to_str (mkPath EmptyString l)) with (String.concat "/" l)
    by (rewrite E; reflexivity).
  rewrite of_str_splitroot, (splitroot_relative _ (concat_not_rooted _ H)).
  cbn [fst snd]. rewrite segments_of_filter, (split_concat _ Hne H).
  f_equal. apply forallb_filter_id. apply forallb_forall. intros s Hs.
  rewrite Forall_forall in H. now destruct (H s Hs).
Qed.

Lemma clean_is_plain (s : string) : clean_segment s -> plain_segment s.
Proof.
  intros [H1 [_ [H3 [_ [H5 _]]]]]. split; [exact H3|].
  unfold pathlib.keep_segment.
  destruct (String.eqb_spec s pystr.dot); [contradiction|].
  destruct s; [contradiction|reflexivity].
Qed.

Lemma safe_segment_ok_clean (value field v : string) :
  storage._safe_segment value field = Ok v -> clean_segment value.
Proof.
  unfold storage._safe_segment.
  destruct (pystr.is_empty value) eqn:E; [discriminate|].
  destruct (pystr.contains pystr.nul value) eqn:N; [discriminate|].
  destruct (pystr.contains pystr.slash value) eqn:Sl; [discriminate|].
  destruct (pystr.contains pystr.backslash value) eqn:B; [discriminate|].
  cbn [orb].
  destruct (pystr.mem value [pystr.dot; pystr.dotdot]) eqn:M; [discriminate|].
  intros _. unfold clean_segment. splits; auto; intros ->; discriminate.
Qed.

Lemma save_files_ok_clean (partner_id dataset_name : string)
      (files : list UploadFile) (d d' : fs.node) (root : Path) :
  store.save_files partner_id dataset_name files d = (d', Ok root) ->
  clean_segment partner_id /\ clean_segment dataset_name.
Proof.
  unfold store.save_files.
  destruct (storage._safe_segment partner_id _) as [p|e] eqn:Sp; [|discriminate].
  destruct (storage._safe_segment dataset_name _) as [n|e] eqn:Sn; [|discriminate].
  intros _. split; eapply safe_segment_ok_clean; eassumption.
Qed.

Lemma root_str_round_trip (partner_id dataset_name : string) :
  clean_segment partner_id -> clean_segment dataset_name ->
  pathlib.of_str (pathlib.to_str (store.root_of partner_id dataset_name))
  = store.root_of partner_id dataset_name.
Proof.
  intros Hp Hd. rewrite (root_of_clean _ _ Hp Hd).
  apply path_str_round_trip.
  repeat constructor; try reflexivity; now apply clean_is_plain.
Qed.

Lemma newest_app_last (l : list models.Dataset) (x : models.Dataset) :
  forall best,
    (forall b, best = Some b -> (models.uploaded_at b < models.uploaded_at x)%Z) ->
    (forall y, In y l -> (models.uploaded_at y < models.uploaded_at x)%Z) ->
    browse.newest best (l ++ [x]) = Some x.
Proof.
  induction l as [|y r IH]; intros best Hb Hl; cbn [app browse.newest].
  - destruct best as [b|]; [|reflexivity].
    specialize (Hb b eq_refl). apply Z.ltb_lt in Hb. now rewrite Hb.
  - destruct best as [b|].
    + destruct (Z.ltb _ _); apply IH; try (intros b' [= <-]); auto.
      all: intros; apply Hl; now (left + right).
    + apply IH; [intros b' [= <-]|]; intros; apply Hl; now (left + right).
Qed.

(** X11. What [upload] registers can be browsed: after a successful
    upload whose time is later than that of every earlier row of the same
    partner and name, the lookup returns the new row, the path stored in
    it parses back to the storage root, [dataset_by_name] reports the
    manifest of that root, and [dataset_tree] answers with a tree for the
    new dataset id. *)
Theorem uploaded_dataset_is_browsable (dataset_id : string) (now : Z)
        (partner_id dataset_name : string) (files : list UploadFile)
        (w w' : world) (answer : string) :
  upload.upload dataset_id now partner_id dataset_name files w = (w', Ok answer) ->
  (forall x, In x (datasets w) -> row_matches partner_id dataset_name x ->
             (models.uploaded_at x < now)%Z) ->
  (exists row,
      browse._get_dataset_by_partner_and_name_or_404 partner_id dataset_name w' = Ok row
      /\ models.id row = dataset_id
      /\ pathlib.of_str (models.path row) = store.root_of partner_id dataset_name
      /\ listing.dataset_by_name partner_id dataset_name w'
         = Ok (listing.mkSummary
                 dataset_id partner_id dataset_name
                 (List.length (upload.all_files (store.root_of partner_id dataset_name)
                                                (disk w')))
                 (upload.total_size (upload.all_files (store.root_of partner_id dataset_name)
                                                      (disk w')))
                 now,
               pathlib.to_str (store.root_of partner_id dataset_name)))
  /\ (exists resp,
         browse.dataset_tree partner_id dataset_name w' = Ok resp
         /\ browse.tr_dataset_id resp = dataset_id).
Proof.
  intros H Hold.
  pose proof (upload_ok_saved _ _ _ _ _ _ _ _ H) as Sv.
  destruct (save_files_ok_clean _ _ _ _ _ _ Sv) as [Hp Hd].
  destruct (save_files_ok _ _ _ _ _ _ Sv) as [_ Hdir].
  unfold upload.upload in H. rewrite Sv in H.
  destruct (Nat.eqb _ 0); [discriminate|]. injection H as <- _.
  cbn [disk datasets] in *.
  set (root := store.root_of partner_id dataset_name) in *.
  set (row := models.mkDataset dataset_id partner_id dataset_name "mixed"
                (pathlib.to_str root)
                (List.length (upload.all_files root (disk w')))
                (upload.total_size (upload.all_files root (disk w'))) now).
  assert (L : browse._get_dataset_by_partner_and_name_or_404
                partner_id dataset_name (mkWorld (disk w') (datasets w ++ [row]))
              = Ok row).
  { unfold browse._get_dataset_by_partner_and_name_or_404. cbn [datasets].
    rewrite filter_app. cbn [filter models.partner_id models.name row].
    rewrite !String.eqb_refl. cbn [andb].
    rewrite newest_app_last; [reflexivity|discriminate|].
    intros y Hy. apply matching_filter in Hy. destruct Hy as [Hy Hm].
    now apply Hold. }
  split.
  - exists row. splits; auto.
    + apply root_str_round_trip; assumption.
    + unfold listing.dataset_by_name. rewrite L. reflexivity.
  - unfold browse.dataset_tree. rewrite L. cbn [bind models.path row].
    unfold root. rewrite (root_str_round_trip _ _ Hp Hd). fold root.
    unfold fs.path_is_dir in Hdir. cbn [disk].
    destruct (fs.lookup (segs root) (disk w')) as [[c|entries]|];
      try discriminate.
    unfold browse.build_tree.
    destruct (browse._build_dir_node 5 2000 6 [] entries 0 (browse.mkWalk false 0))
      as [[t st]|] eqn:B.
    + eexists. split; reflexivity.
    + exfalso. revert B. apply build_dir_node_total. lia.
Qed.

Lemma uploaded_dataset_is_browsable_witness :
  exists resp,
    browse.dataset_tree "acme" "cats"
      (fst (upload.upload "id2" 2 "acme" "cats" [mkUpload "new.txt" "hi"]
                          sample.cats_world))
    = Ok resp
    /\ browse.tr_dataset_id resp = "id2".
Proof.
  destruct (uploaded_dataset_is_browsable "id2" 2 "acme" "cats"
              [mkUpload "new.txt" "hi"] sample.cats_world
              (fst (upload.upload "id2" 2 "acme" "cats" [mkUpload "new.txt" "hi"]
                                  sample.cats_world))
              "id2") as [_ H].
  - vm_compute. reflexivity.
  - intros x [<-|[]] _. reflexivity.
  - exact H.
Defined.

(* ================================================================= *)
(** ** More on previews and thumbnails *)


Lemma nth_in_with_default {A : Type} (k : nat) (l : list A) (d : A) :
  In d l -> In (nth k l d) l.
Proof.
  intros H. destruct (nth_in_or_default k l d) as [X|X]; [exact X|].
  now rewrite X.
Qed.

(** X13. When no path (or the empty one) is given, the image [thumbnail]
    answers with is rendered from the bytes of a regular file below the
    dataset root that has an image extension and is not hidden. *)
Theorem pathless_thumbnail_is_a_visible_image (e : env)
        (partner_id dataset_name : string) (path : option string) (w : world)
        (saved : pil.Saved) (media : string) :
  path = None \/ path = Some EmptyString ->
  thumb.thumbnail e partner_id dataset_name path w = Ok (saved, media) ->
  exists d r q content,
    browse._get_dataset_by_partner_and_name_or_404 partner_id dataset_name w = Ok d
    /\ fs.lookup (segs (pathlib.of_str (models.path d))) (disk w) = Some r
    /\ In (q, fs.File content) (fs.rglob r)
    /\ preview.has_image_ext q = true
    /\ storage.is_hidden_or_metadata_path (browse.rel_path q) = false
    /\ thumb.render e content = Ok (saved, media).
Proof.
  intros Hpath H. unfold thumb.thumbnail in H.
  destruct (browse._get_dataset_by_partner_and_name_or_404 _ _ w) as [d|];
    [|discriminate].
  cbn [bind] in H.
  assert (H' :
    match
      (let files := match fs.lookup (segs (pathlib.of_str (models.path d))) (disk w) with
                    | Some r => thumb.candidates r
                    | None => []
                    end in
       match files with
       | [] => Raise (HTTPException 404 "No image files found in dataset")
       | f :: _ => Ok (Some (snd (nth (random_index e (List.length files)) files f)))
       end)
    with
    | Ok target =>
        match target with
        | Some (fs.File content) =>
            if negb (pil_installed e)
            then Raise (HTTPException 500 "Pillow not installed (pip install pillow)")
            else thumb.render e content
        | _ => Raise (HTTPException 404 "File not found")
        end
    | Raise x => Raise x
    end = Ok (saved, media)).
  { destruct Hpath as [-> | ->]; exact H. }
  clear H. cbv zeta in H'.
  destruct (fs.lookup _ (disk w)) as [r|] eqn:Lk; [|discriminate].
  destruct (thumb.candidates r) as [|f rest] eqn:C; [discriminate|].
  set (pick := nth _ (f :: rest) f) in H'.
  assert (Hin : In pick (thumb.candidates r)).
  { rewrite C. apply nth_in_with_default. now left. }
  destruct pick as [q x]. cbn [snd] in H'.
  destruct x as [content|es]; [|discriminate].
  destruct (pil_installed e); cbn [negb] in H'; [|discriminate].
  unfold thumb.candidates in Hin. apply filter_In in Hin.
  destruct Hin as [Hin Hp]. cbn [fst snd] in Hp.
  apply andb_true_iff in Hp. destruct Hp as [Hp Hv].
  apply andb_true_iff in Hp. destruct Hp as [_ Hx].
  apply negb_true_iff in Hv.
  exists d, r, q, content. splits; auto.
Qed.

Lemma pathless_thumbnail_is_a_visible_image_witness :
  exists d r q content,
    browse._get_dataset_by_partner_and_name_or_404 "acme" "mac" sample.mac_world = Ok d
    /\ fs.lookup (segs (pathlib.of_str (models.path d))) (disk sample.mac_world) = Some r
    /\ In (q, fs.File content) (fs.rglob r)
    /\ preview.has_image_ext q = true
    /\ storage.is_hidden_or_metadata_path (browse.rel_path q) = false
    /\ thumb.render sample.demo_env content
       = Ok (pil.mkSaved "JPEG" (Some 85) true (pil.mkImage "RGB" 256 192 false),
             "image/jpeg").
Proof.
  apply (pathless_thumbnail_is_a_visible_image sample.demo_env "acme" "mac" None).
  - now left.
  - vm_compute. reflexivity.
Defined.

(** X14. On a dataset that exists and whose root resolves, [thumbnail]
    answers 400 to a path that is absolute or has a [..] segment (once
    backslashes are slashes): the guard refuses it before any file is
    located or opened. *)
Theorem thumbnail_refuses_traversal (e : env) (partner_id dataset_name : string)
        (path : string) (w : world) (d : models.Dataset) :
  browse._get_dataset_by_partner_and_name_or_404 partner_id dataset_name w = Ok d ->
  resolve e (pathlib.of_str (models.path d)) <> None ->
  is_absolute_text path \/ has_dotdot_segment path ->
  exists detail,
    thumb.thumbnail e partner_id dataset_name (Some path) w
    = Raise (HTTPException 400 detail).
Proof.
  intros Hd Hr Hbad. unfold thumb.thumbnail. rewrite Hd. cbn [bind].
  destruct path as [|c s].
  - exfalso. destruct Hbad as [H|H]; [discriminate H|].
    destruct H as [H|[]]. discriminate H.
  - destruct (safe_join_rejects (resolve e) _ (String c s) Hbad Hr) as [detail ->].
    exists detail. reflexivity.
Qed.

Lemma thumbnail_refuses_traversal_witness :
  exists detail,
    thumb.thumbnail sample.demo_env "acme" "mac" (Some "../cats/a.txt") sample.mac_world
    = Raise (HTTPException 400 detail).
Proof.
  apply (thumbnail_refuses_traversal sample.demo_env "acme" "mac" "../cats/a.txt"
           sample.mac_world (sample.row "mac" 1 3 1)).
  - reflexivity.
  - vm_compute. discriminate.
  - right. vm_compute. left. reflexivity.
Defined.

(** X16. [list_datasets] has one summary per row, in table order. After
    an upload it is the list from before, followed by one summary with
    the request's ids and a positive file count when the upload answered
    with the dataset id, and by nothing otherwise. *)
Theorem listing_follows_uploads (dataset_id : string) (now : Z)
        (partner_id dataset_name : string) (files : list UploadFile) (w : world) :
  List.length (listing.list_datasets w) = List.length (datasets w)
  /\ match upload.upload dataset_id now partner_id dataset_name files w with
     | (w', Ok _) =>
         exists count size,
           0 < count
           /\ listing.list_datasets w'
              = (listing.list_datasets w
                   ++ [listing.mkSummary dataset_id partner_id dataset_name
                                         count size now])%list
     | (w', Raise _) => listing.list_datasets w' = listing.list_datasets w
     end.
Proof.
  split; [apply length_map|].
  unfold upload.upload.
  destruct (store.save_files partner_id dataset_name files (disk w))
    as [d [root|x]].
  - destruct (List.length (upload.all_files root d)) as [|k] eqn:L;
      cbn [Nat.eqb]; [reflexivity|].
    exists (Datatypes.S k), (upload.total_size (upload.all_files root d)).
    split; [lia|]. unfold listing.list_datasets. cbn [datasets].
    rewrite map_app. reflexivity.
  - destruct x; reflexivity.
Qed.
